(** * gitstack-backend: the snapshot / tree derivation engine

    A shallow embedding of [src/controllers/codeController.ts]: the helpers
    [resolveSnapshotId], [getFilesInSnapshot], [createNewSnapshot],
    [updateBranchHead] and the request handlers [createFile], [createFolder],
    [deleteFile], [deleteFolder], [getTree] and [getBlob], over an explicit
    model of the two stores the handlers talk to: the PostgreSQL tables
    (through one pooled connection and its transaction) and the Supabase
    storage bucket.  The handlers [getBranches], [getReadme] and
    [updateReadme] of the same controller follow, with further properties of
    all of them. *)

From Stdlib Require Import ZArith String Ascii List Lia Permutation.
From stdpp Require Import base option list strings gmap.

(** ** JavaScript string primitives used by the controller *)

Module JS.

(** [if (s)] / [!s] on a string: only the empty string is falsy. *)
Definition truthy (s : string) : bool :=
  match s with EmptyString => false | String _ _ => true end.

(** [s.startsWith(p)] *)
Fixpoint startsWith (s p : string) {struct p} : bool :=
  match p with
  | EmptyString => true
  | String c p' =>
      match s with
      | EmptyString => false
      | String d s' => Ascii.eqb d c && startsWith s' p'
      end
  end.

(** [s.endsWith(x)]: some suffix of [s] is [x]. *)
Fixpoint endsWith (s x : string) {struct s} : bool :=
  String.eqb s x ||
  match s with
  | EmptyString => false
  | String _ s' => endsWith s' x
  end.

(** [s.slice(n)] *)
Fixpoint slice_from (n : nat) (s : string) : string :=
  match n, s with
  | O, _ => s
  | S n', String _ s' => slice_from n' s'
  | S _, EmptyString => EmptyString
  end.

(** [s.slice(0, n)] for [n >= 0] *)
Fixpoint slice_to (n : nat) (s : string) : string :=
  match n, s with
  | O, _ => EmptyString
  | S n', String c s' => String c (slice_to n' s')
  | S _, EmptyString => EmptyString
  end.

(** [s.indexOf(c)] for a one-character needle; [-1] when absent. *)
Fixpoint indexOf (s : string) (c : ascii) : Z :=
  match s with
  | EmptyString => (-1)%Z
  | String d s' =>
      if Ascii.eqb d c then 0%Z
      else match indexOf s' c with
           | Zneg _ => (-1)%Z
           | i => Z.succ i
           end
  end.

Definition slash : ascii := "/"%char.

(** The two alternatives of [/^\/+|\/+$/g], replaced by the empty string:
    the run of slashes at the start, and the run of slashes at the end. *)
Fixpoint strip_leading_slashes (s : string) : string :=
  match s with
  | EmptyString => EmptyString
  | String c s' => if Ascii.eqb c slash then strip_leading_slashes s' else s
  end.

Fixpoint strip_trailing_slashes (s : string) : string :=
  match s with
  | EmptyString => EmptyString
  | String c s' =>
      match strip_trailing_slashes s' with
      | EmptyString => if Ascii.eqb c slash then EmptyString else String c EmptyString
      | r => String c r
      end
  end.

Definition replace_outer_slashes (s : string) : string :=
  strip_trailing_slashes (strip_leading_slashes s).

End JS.

(** ** Data model *)

(** Row identifiers are PostgreSQL UUIDs drawn by [gen_random_uuid()].  They
    are kept abstract: a generated identifier is a position in the
    generator's sequence.  A UUID read back by the driver is a non-empty
    text, so for an identifier "non-null" and "truthy" coincide. *)
Definition uuid : Type := nat.

(** The element type of the file arrays the mutator works on:
    [{ path: string; hash: string; size: number; mode: number }]. *)
Module File.
Record t : Type := mk { path : string; hash : string; size : Z; mode : Z }.

#[global] Instance eq_dec : EqDecision t.
Proof. solve_decision. Defined.
End File.

(** Columns of [snapshots] (db/schema.sql). *)
Record snapshots_row : Type := {
  snap_id : uuid;
  snap_project_id : string;
  snap_user_id : string;
  snap_title : string;
  snap_description : option string;
  snap_timestamp : Z;
  snap_file_count : Z;
  snap_external_id : option string
}.

(** Columns of [snapshot_files] (db/schema.sql); the row's own [id] is never
    read by the controller and is left out.  The schema lets [hash], [size]
    and [mode] be null; every row this controller inserts carries the three,
    and rows with a null column are not represented. *)
Record snapshot_files_row : Type := {
  sf_snapshot_id : uuid;
  sf_path : string;
  sf_hash : string;
  sf_size : Z;
  sf_mode : Z
}.

(** The columns of [branches] that the controller's statements name. *)
Record branches_row : Type := {
  br_project_id : string;
  br_name : string;
  br_head_snapshot_id : option uuid;
  br_updated_at : Z
}.

(** The relational store: the three tables in insertion order, and the
    position reached by the identifier generator. *)
Record Database : Type := {
  snapshots : list snapshots_row;
  snapshot_files : list snapshot_files_row;
  branches : list branches_row;
  uuid_seq : uuid
}.

(** Everything a request can observe or change: the committed database, the
    storage bucket (object key to stored bytes), the wall clock read by
    [Date.now()], and whether the storage service currently refuses uploads
    (with the error message it reports). *)
Record World : Type := {
  db : Database;
  bucket : gmap string (list Byte.byte);
  clock : Z;
  upload_fault : option string
}.

(** ** Library functions the controller imports

    [crypto], [Buffer], [path] and [mime-types] are not part of the
    repository; neither is the textual form of a UUID.  They are taken as
    an interface. *)
Class Platform : Type := {
  (** [crypto.createHash('sha256').update(b).digest('hex')] *)
  sha256_hex : list Byte.byte → string;
  (** [Buffer.from(s, 'base64')] *)
  base64_decode : string → list Byte.byte;
  (** [buf.toString('base64')] *)
  base64_encode : list Byte.byte → string;
  (** [path.join(a, b)] *)
  path_join : string → string → string;
  (** [mime.lookup(p)], which is [false] for an unknown extension *)
  mime_lookup : string → option string;
  (** the text of an identifier, as interpolated by a template string *)
  uuid_text : uuid → string;
  (** the collation order used by [ORDER BY path ASC] *)
  collate_le : string → string → bool
}.

(** ** One pooled connection *)

Inductive result (A : Type) : Type :=
| Returned (a : A)
| Thrown (message : string).
Arguments Returned {A} a.
Arguments Thrown {A} message.

(** A client taken from the pool: the world it acts on, and the database as
    seen inside its open transaction, if one is open. *)
Record Client : Type := { world : World; tx : option Database }.

(** An [async] computation on a client. *)
Definition Async (A : Type) : Type := Client → result A * Client.

#[global] Instance Async_ret : MRet Async := λ A a c, (Returned a, c).

#[global] Instance Async_bind : MBind Async := λ A B k m c,
  match m c with
  | (Returned a, c') => k a c'
  | (Thrown e, c') => (Thrown e, c')
  end.

Definition throw {A : Type} (message : string) : Async A :=
  λ c, (Thrown message, c).

(** [try { body } catch (e) { handler(e.message) }] *)
Definition try_catch {A : Type} (body : Async A) (handler : string → Async A) : Async A :=
  λ c, match body c with
       | (Returned a, c') => (Returned a, c')
       | (Thrown e, c') => handler e c'
       end.

Definition with_db (w : World) (d : Database) : World :=
  {| db := d; bucket := bucket w; clock := clock w; upload_fault := upload_fault w |}.

Definition with_bucket (w : World) (b : gmap string (list Byte.byte)) : World :=
  {| db := db w; bucket := b; clock := clock w; upload_fault := upload_fault w |}.

(** The database a statement of this client runs against. *)
Definition view (c : Client) : Database :=
  match tx c with Some d => d | None => db (world c) end.

(** Statements are taken to run to completion: connection failures and
    constraint violations raised by the server are outside this model.  One
    of them depends on the request alone: [snapshots.title] is
    [VARCHAR(255)], and the server refuses the INSERT of a longer title, upon
    which the handler rolls back and answers 500.  [title_fits] below is the
    bound under which that INSERT is accepted. *)

(** A [SELECT]. *)
Definition query {A : Type} (q : Database → A) : Async A :=
  λ c, (Returned (q (view c)), c).

(** An [INSERT]/[UPDATE], possibly [RETURNING] a value: inside a transaction
    it changes the transaction's view only; outside one it is committed at
    once. *)
Definition execute {A : Type} (stmt : Database → A * Database) : Async A :=
  λ c, let '(a, d) := stmt (view c) in
       (Returned a,
        match tx c with
        | Some _ => {| world := world c; tx := Some d |}
        | None => {| world := with_db (world c) d; tx := None |}
        end).

Definition BEGIN : Async unit :=
  λ c, (Returned tt, {| world := world c; tx := Some (view c) |}).

Definition COMMIT : Async unit :=
  λ c, (Returned tt, {| world := with_db (world c) (view c); tx := None |}).

Definition ROLLBACK : Async unit :=
  λ c, (Returned tt, {| world := world c; tx := None |}).

(** [Date.now()] *)
Definition Date_now : Async Z := λ c, (Returned (clock (world c)), c).

(** [supabaseService.storage.from(bucket).upload(key, data,
    { cacheControl, upsert: true, contentType })], returning the [error] field
    of its result.  With [upsert] an object already under the key is
    replaced.  The content type is kept by the service with the object and
    read back by no handler. *)
Definition storage_upload (key : string) (data : list Byte.byte) (contentType : string)
  : Async (option string) :=
  λ c, match upload_fault (world c) with
       | Some msg => (Returned (Some msg), c)
       | None =>
           (Returned None,
            {| world := with_bucket (world c) (<[key := data]> (bucket (world c)));
               tx := tx c |})
       end.

(** The [{ data, error }] result of [download(key)]. *)
Record DownloadResult : Type := { data : option (list Byte.byte); error : option string }.

Definition storage_download (key : string) : Async DownloadResult :=
  λ c, (Returned
          match bucket (world c) !! key with
          | Some bytes => {| data := Some bytes; error := None |}
          | None => {| data := None; error := Some "Object not found" |}
          end, c).

(** ** The SQL statements the controller issues *)

Module Pg.

Definition percent : ascii := "%"%char.
Definition underscore : ascii := "_"%char.
Definition backslash : ascii := ascii_of_nat 92.

(** [text LIKE pattern], as PostgreSQL evaluates it when no [ESCAPE]
    clause is given: [%] matches any run of characters, [_] matches any
    one character, the backslash makes the character after it match
    itself only, and every other character matches itself.  (A pattern
    that ends in a lone backslash is rejected by the server; it matches
    nothing here.  Texts are matched byte by byte; the server matches
    characters, which is the same but for a wildcard against a character of
    several bytes.) *)
Fixpoint like (text pattern : string) {struct pattern} : bool :=
  match pattern with
  | EmptyString => negb (JS.truthy text)
  | String p rest =>
      if Ascii.eqb p percent then
        (fix any (t : string) : bool :=
           like t rest ||
           match t with
           | EmptyString => false
           | String _ t' => any t'
           end) text
      else if Ascii.eqb p underscore then
        match text with
        | EmptyString => false
        | String _ t' => like t' rest
        end
      else if Ascii.eqb p backslash then
        match rest with
        | EmptyString => false
        | String q rest' =>
            match text with
            | EmptyString => false
            | String c t' => Ascii.eqb c q && like t' rest'
            end
        end
      else
        match text with
        | EmptyString => false
        | String c t' => Ascii.eqb c p && like t' rest
        end
  end.

(** [LIMIT 1] *)
Definition limit_1 {A : Type} (rows : list A) : list A := take 1 rows.

(** [SELECT head_snapshot_id FROM branches
     WHERE project_id = $1 AND name = $2 LIMIT 1] *)
Definition select_branch_head (project_id name : string) (d : Database)
  : list (option uuid) :=
  limit_1 (br_head_snapshot_id <$>
           filter (λ r, br_project_id r = project_id ∧ br_name r = name) (branches d)).

(** The most recent of some snapshot rows; of several rows with the
    greatest timestamp, the one inserted first. *)
Fixpoint newest (rows : list snapshots_row) : option snapshots_row :=
  match rows with
  | [] => None
  | r :: rest =>
      match newest rest with
      | Some r' => if (snap_timestamp r <? snap_timestamp r')%Z then Some r' else Some r
      | None => Some r
      end
  end.

(** Modelled from the spec: the view [latest_project_snapshot] is queried by
    the controller but defined neither in db/schema.sql nor elsewhere in
    the sources.  The spec describes it as "the most recent snapshot for
    the project ordered by timestamp descending": for a project, the view
    holds that one snapshot row, and no row when the project has no
    snapshot. *)
Definition latest_project_snapshot (d : Database) (project_id : string)
  : list snapshots_row :=
  option_list (newest (filter (λ r, snap_project_id r = project_id) (snapshots d))).

(** [SELECT id FROM latest_project_snapshot WHERE project_id = $1 LIMIT 1] *)
Definition select_latest_snapshot_id (project_id : string) (d : Database)
  : list uuid :=
  limit_1 (snap_id <$> latest_project_snapshot d project_id).

Definition file_of_row (r : snapshot_files_row) : File.t :=
  File.mk (sf_path r) (sf_hash r) (sf_size r) (sf_mode r).

(** [SELECT path, hash, size, mode FROM snapshot_files WHERE snapshot_id = $1] *)
Definition select_snapshot_files (snapshot_id : uuid) (d : Database)
  : list File.t :=
  file_of_row <$> filter (λ r, sf_snapshot_id r = snapshot_id) (snapshot_files d).

(** [SELECT path, hash, size, mode FROM snapshot_files
     WHERE snapshot_id = $1 AND path = $2 LIMIT 1] *)
Definition select_file_by_path (snapshot_id : uuid) (path : string) (d : Database)
  : list File.t :=
  limit_1 (file_of_row <$>
           filter (λ r, sf_snapshot_id r = snapshot_id ∧ sf_path r = path)
                  (snapshot_files d)).

(** [INSERT INTO snapshots (project_id, user_id, title, description,
     timestamp, file_count, external_id) VALUES (...) RETURNING id] *)
Definition insert_snapshot (project_id user_id title : string)
    (description : option string) (timestamp file_count : Z)
    (external_id : option string) (d : Database) : uuid * Database :=
  let id := uuid_seq d in
  (id,
   {| snapshots := snapshots d ++
        [{| snap_id := id; snap_project_id := project_id; snap_user_id := user_id;
            snap_title := title; snap_description := description;
            snap_timestamp := timestamp; snap_file_count := file_count;
            snap_external_id := external_id |}];
      snapshot_files := snapshot_files d;
      branches := branches d;
      uuid_seq := S id |}).

(** [INSERT INTO snapshot_files (snapshot_id, path, hash, size, mode)
     VALUES (...)] *)
Definition row_of_file (snapshot_id : uuid) (f : File.t) : snapshot_files_row :=
  {| sf_snapshot_id := snapshot_id; sf_path := File.path f; sf_hash := File.hash f;
     sf_size := File.size f; sf_mode := File.mode f |}.

Definition insert_snapshot_file (snapshot_id : uuid) (f : File.t) (d : Database)
  : unit * Database :=
  (tt,
   {| snapshots := snapshots d;
      snapshot_files := snapshot_files d ++ [row_of_file snapshot_id f];
      branches := branches d;
      uuid_seq := uuid_seq d |}).

Definition set_head (head : uuid) (now : Z) (project_id name : string)
    (r : branches_row) : branches_row :=
  if decide (br_project_id r = project_id ∧ br_name r = name)
  then {| br_project_id := br_project_id r; br_name := br_name r;
          br_head_snapshot_id := Some head; br_updated_at := now |}
  else r.

(** [UPDATE branches SET head_snapshot_id = $1, updated_at = $2
     WHERE project_id = $3 AND name = $4] *)
Definition update_branch_head (head : uuid) (now : Z) (project_id name : string)
    (d : Database) : unit * Database :=
  (tt,
   {| snapshots := snapshots d;
      snapshot_files := snapshot_files d;
      branches := set_head head now project_id name <$> branches d;
      uuid_seq := uuid_seq d |}).

Section OrderBy.
Context `{Platform}.

(** [ORDER BY path ASC], as a stable insertion sort under the collation. *)
Fixpoint insert_by_path (r : snapshot_files_row) (sorted : list snapshot_files_row)
  : list snapshot_files_row :=
  match sorted with
  | [] => [r]
  | r' :: rest =>
      if collate_le (sf_path r) (sf_path r') then r :: sorted
      else r' :: insert_by_path r rest
  end.

Definition order_by_path (rows : list snapshot_files_row) : list snapshot_files_row :=
  foldr insert_by_path [] rows.

(** [SELECT path, size, mode FROM snapshot_files
     WHERE snapshot_id = $1 AND path LIKE $2 || '%' ORDER BY path ASC] *)
Definition select_tree_files (snapshot_id : uuid) (prefix : string) (d : Database)
  : list snapshot_files_row :=
  order_by_path
    (filter (λ r, sf_snapshot_id r = snapshot_id ∧
                  like (sf_path r) (prefix +:+ "%") = true)
            (snapshot_files d)).
End OrderBy.

End Pg.

(** ** Responses *)

(** ['dir' | 'file'] *)
Inductive EntryType : Type := type_dir | type_file.

Record TreeEntry : Type := {
  entry_name : string;
  entry_type : EntryType;
  entry_size : option Z
}.

(** The JSON bodies the handlers send. *)
Inductive Json : Type :=
| JError (error : string)
| JNoContent (error : string)
| JNewFile (snapshotId : uuid) (newFile : File.t)
| JNewFolder (snapshotId : uuid) (path : string)
| JDeleted (snapshotId : uuid) (deletedPath : string)
| JTree (entries : list TreeEntry)
| JBlob (path hash : string) (size mode : Z) (content : option string)
        (mime : string) (message : option string).

Record Response : Type := { status : Z; json : Json }.

(** [res.status(code).json(body)] *)
Definition respond (code : Z) (body : Json) : Response :=
  {| status := code; json := body |}.

(** ** The controller (src/controllers/codeController.ts) *)

(** Request bodies, typed as the handlers cast them.  A missing string field
    reads as the empty string, which the field checks treat alike; [content]
    is tested with [typeof], so its absence is kept apart. *)
Record FileBody : Type := {
  fb_branch : string;
  fb_path : string;
  fb_content : option string;
  fb_userId : string
}.

Record PathBody : Type := {
  pb_branch : string;
  pb_path : string;
  pb_userId : string
}.

Section Controller.
Context `{Platform}.

(** [await Promise.all(queries)] on one connection: the statements run in
    the order they were issued. *)
Fixpoint await_all (queries : list (Async unit)) : Async unit :=
  match queries with
  | [] => mret tt
  | q :: rest => q ;; await_all rest
  end.

(** [pool.connect()], the handler body, and [client.release()] in
    [finally].  An error escaping the handler is answered by the server's
    generic 500. *)
Definition with_client (handler : Async Response) (w : World) : Response * World :=
  match handler {| world := w; tx := None |} with
  | (Returned r, c) => (r, world c)
  | (Thrown e, c) => (respond 500 (JError "Internal server error"), world c)
  end.

(** Helper: resolve head snapshot for branch, else latest snapshot *)
Definition resolveSnapshotId (projectId : string) (branch : option string)
  : Async (option uuid) :=
  let latest : Async (option uuid) :=
    latest ← query (Pg.select_latest_snapshot_id projectId);
    mret (head latest) in
  match branch with
  | Some name =>
      if JS.truthy name then
        br ← query (Pg.select_branch_head projectId name);
        match br with
        | Some head_snapshot_id :: _ => mret (Some head_snapshot_id)
        | _ => latest
        end
      else latest
  | None => latest
  end.

(** Helper: Get files for a given snapshot *)
Definition getFilesInSnapshot (snapshotId : uuid) : Async (list File.t) :=
  query (Pg.select_snapshot_files snapshotId).

(** Helper: Create a new snapshot *)
Definition createNewSnapshot (projectId userId : string) (files : list File.t)
    (title description externalId : option string) : Async uuid :=
  now ← Date_now;
  let fileCount := Z.of_nat (length files) in
  newSnapshotId ← execute (Pg.insert_snapshot projectId userId
                             (default "Automated snapshot" title)
                             description now fileCount externalId);
  (if decide (0 < length files)%nat
   then await_all ((λ file, execute (Pg.insert_snapshot_file newSnapshotId file)) <$> files)
   else mret tt) ;;
  mret newSnapshotId.

(** Helper: Update branch head *)
Definition updateBranchHead (projectId branch : string) (newSnapshotId : uuid)
  : Async unit :=
  now ← Date_now;
  execute (Pg.update_branch_head newSnapshotId now projectId branch).

(** [e.message || 'Internal server error'] *)
Definition message_or_default (message : string) : string :=
  if JS.truthy message then message else "Internal server error".

Definition storage_key (projectId hash : string) : string :=
  projectId +:+ "/" +:+ hash.

(** [mime.lookup(p) || fallback] *)
Definition mime_or (p fallback : string) : string :=
  match mime_lookup p with
  | Some m => if JS.truthy m then m else fallback
  | None => fallback
  end.

Definition createFile (projectId : string) (body : FileBody) : World → Response * World :=
  let branch := fb_branch body in
  let filePath := fb_path body in
  let userId := fb_userId body in
  match fb_content body with
  | Some content =>
      if negb (JS.truthy branch) || negb (JS.truthy filePath) || negb (JS.truthy userId)
      then λ w, (respond 400 (JError "Branch, path, content, and userId are required."), w)
      else
        with_client (try_catch
          (BEGIN ;;
           currentSnapshotId ← resolveSnapshotId projectId (Some branch);
           existingFiles ← match currentSnapshotId with
                           | Some id => getFilesInSnapshot id
                           | None => mret []
                           end;
           let contentBuffer := base64_decode content in
           let fileHash := sha256_hex contentBuffer in
           let fileSize := Z.of_nat (length contentBuffer) in
           let fileMode := 644%Z in
           let filteredFiles := filter (λ f, File.path f ≠ filePath) existingFiles in
           let newFile := File.mk filePath fileHash fileSize fileMode in
           let allFiles := filteredFiles ++ [newFile] in
           let filePathInStorage := storage_key projectId (File.hash newFile) in
           uploadError ← storage_upload filePathInStorage contentBuffer
                     (mime_or filePath "application/octet-stream");
           match uploadError with
           | Some message =>
               throw ("Failed to upload file content for " +:+ filePath +:+
                      " to Supabase: " +:+ message)
           | None =>
               newSnapshotId ← createNewSnapshot projectId userId allFiles
                                 (Some ("Create file: " +:+ filePath)) None None;
               updateBranchHead projectId branch newSnapshotId ;;
               COMMIT ;;
               mret (respond 201 (JNewFile newSnapshotId newFile))
           end)
          (λ message,
             ROLLBACK ;;
             mret (respond 500 (JError (message_or_default message)))))
  | None =>
      λ w, (respond 400 (JError "Branch, path, content, and userId are required."), w)
  end.

Definition createFolder (projectId : string) (body : PathBody) : World → Response * World :=
  let branch := pb_branch body in
  let folderPath := pb_path body in
  let userId := pb_userId body in
  if negb (JS.truthy branch) || negb (JS.truthy folderPath) || negb (JS.truthy userId)
  then λ w, (respond 400 (JError "Branch, path, and userId are required."), w)
  else
    with_client (try_catch
      (BEGIN ;;
       currentSnapshotId ← resolveSnapshotId projectId (Some branch);
       existingFiles ← match currentSnapshotId with
                       | Some id => getFilesInSnapshot id
                       | None => mret []
                       end;
       let gitkeepPath := path_join folderPath ".gitkeep" in
       let gitkeepContent : list Byte.byte := [] in
       let gitkeepHash := sha256_hex gitkeepContent in
       let gitkeepSize := 0%Z in
       let gitkeepMode := 644%Z in
       let filteredFiles := filter (λ f, File.path f ≠ gitkeepPath) existingFiles in
       let newGitkeepFile := File.mk gitkeepPath gitkeepHash gitkeepSize gitkeepMode in
       let allFiles := filteredFiles ++ [newGitkeepFile] in
       let filePathInStorage := storage_key projectId (File.hash newGitkeepFile) in
       uploadError ← storage_upload filePathInStorage gitkeepContent "text/plain";
       (* an upload error is logged and the handler carries on *)
       match uploadError with
       | Some _ => mret tt
       | None => mret tt
       end ;;
       newSnapshotId ← createNewSnapshot projectId userId allFiles
                         (Some ("Create folder: " +:+ folderPath)) None None;
       updateBranchHead projectId branch newSnapshotId ;;
       COMMIT ;;
       mret (respond 201 (JNewFolder newSnapshotId folderPath)))
      (λ message,
         ROLLBACK ;;
         mret (respond 500 (JError (message_or_default message))))).

Definition deleteFile (projectId : string) (body : PathBody) : World → Response * World :=
  let branch := pb_branch body in
  let filePath := pb_path body in
  let userId := pb_userId body in
  if negb (JS.truthy branch) || negb (JS.truthy filePath) || negb (JS.truthy userId)
  then λ w, (respond 400 (JError "Branch, path, and userId are required."), w)
  else
    with_client (try_catch
      (BEGIN ;;
       currentSnapshotId ← resolveSnapshotId projectId (Some branch);
       match currentSnapshotId with
       | None =>
           ROLLBACK ;;
           mret (respond 404 (JError "Branch or project has no snapshots."))
       | Some currentSnapshotId =>
           existingFiles ← getFilesInSnapshot currentSnapshotId;
           let updatedFiles := filter (λ f, File.path f ≠ filePath) existingFiles in
           if decide (length existingFiles = length updatedFiles) then
             ROLLBACK ;;
             mret (respond 404 (JError ("File not found at path: " +:+ filePath)))
           else
             newSnapshotId ← createNewSnapshot projectId userId updatedFiles
                               (Some ("Delete file: " +:+ filePath)) None None;
             updateBranchHead projectId branch newSnapshotId ;;
             COMMIT ;;
             mret (respond 200 (JDeleted newSnapshotId filePath))
       end)
      (λ _,
         ROLLBACK ;;
         mret (respond 500 (JError "Internal server error")))).

Definition folderPrefix (folderPath : string) : string :=
  if JS.endsWith folderPath "/" then folderPath else folderPath +:+ "/".

Definition deleteFolder (projectId : string) (body : PathBody) : World → Response * World :=
  let branch := pb_branch body in
  let folderPath := pb_path body in
  let userId := pb_userId body in
  if negb (JS.truthy branch) || negb (JS.truthy folderPath) || negb (JS.truthy userId)
  then λ w, (respond 400 (JError "Branch, path, and userId are required."), w)
  else
    with_client (try_catch
      (BEGIN ;;
       currentSnapshotId ← resolveSnapshotId projectId (Some branch);
       match currentSnapshotId with
       | None =>
           ROLLBACK ;;
           mret (respond 404 (JError "Branch or project has no snapshots."))
       | Some currentSnapshotId =>
           existingFiles ← getFilesInSnapshot currentSnapshotId;
           let folderPrefix := folderPrefix folderPath in
           let updatedFiles :=
             filter (λ f, JS.startsWith (File.path f) folderPrefix ≠ true) existingFiles in
           if decide (length existingFiles = length updatedFiles) then
             ROLLBACK ;;
             mret (respond 404
                     (JError ("Folder not found or already empty at path: " +:+ folderPath)))
           else
             newSnapshotId ← createNewSnapshot projectId userId updatedFiles
                               (Some ("Delete folder: " +:+ folderPath)) None None;
             updateBranchHead projectId branch newSnapshotId ;;
             COMMIT ;;
             mret (respond 200 (JDeleted newSnapshotId folderPath))
       end)
      (λ _,
         ROLLBACK ;;
         mret (respond 500 (JError "Internal server error")))).

(** The loop of [getTree] over the selected rows: one step for one row,
    on the set [seen] and the array [entries].  ([size: row.size ??
    undefined] sends the size of a row that has one, as every row has
    here.) *)
Definition tree_step (likePrefix : string) (acc : gset string * list TreeEntry)
    (row : snapshot_files_row) : gset string * list TreeEntry :=
  let '(seen, entries) := acc in
  let rel := JS.slice_from (String.length likePrefix) (sf_path row) in
  let slash := JS.indexOf rel JS.slash in
  if decide (slash = (-1)%Z) then
    let name := rel in
    if decide (name ∈ seen) then (seen, entries)
    else ({[name]} ∪ seen,
          entries ++ [{| entry_name := name; entry_type := type_file;
                         entry_size := Some (sf_size row) |}])
  else
    let dir_name := JS.slice_to (Z.to_nat slash) rel in
    if decide (dir_name ∈ seen) then (seen, entries)
    else ({[dir_name]} ∪ seen,
          entries ++ [{| entry_name := dir_name; entry_type := type_dir;
                         entry_size := None |}]).

(** [basePath] and [likePrefix] of [getTree]. *)
Definition tree_basePath (path : option string) : string :=
  JS.replace_outer_slashes (default "" path).

Definition tree_likePrefix (path : option string) : string :=
  let basePath := tree_basePath path in
  if JS.truthy basePath then basePath +:+ "/" else "".

(** The rows [getTree] reads for a snapshot. *)
Definition tree_rows (snapshotId : uuid) (path : option string) (d : Database)
  : list snapshot_files_row :=
  Pg.select_tree_files snapshotId (tree_likePrefix path) d.

Definition getTree (projectId : string) (branch path : option string)
  : World → Response * World :=
  with_client (try_catch
    (snapshotId ← resolveSnapshotId projectId branch;
     match snapshotId with
     | None => mret (respond 200 (JTree []))
     | Some snapshotId =>
         let likePrefix := tree_likePrefix path in
         files ← query (tree_rows snapshotId path);
         let '(_, entries) := foldl (tree_step likePrefix) (∅, []) files in
         mret (respond 200 (JTree entries))
     end)
    (λ _, mret (respond 500 (JError "Internal server error")))).

Definition getBlob (projectId : string) (branch path : option string)
  : World → Response * World :=
  let filePath := default "" path in
  with_client (try_catch
    (snapshotId ← resolveSnapshotId projectId branch;
     match snapshotId with
     | None => mret (respond 404 (JNoContent "No snapshot for this branch/project"))
     | Some snapshotId =>
         fileMetadata ← query (Pg.select_file_by_path snapshotId filePath);
         match fileMetadata with
         | [] => mret (respond 404 (JNoContent "File not found"))
         | file :: _ =>
             let filePathInStorage :=
               projectId +:+ "/" +:+ uuid_text snapshotId +:+ "/" +:+ File.hash file in
             let fileMime := mime_or filePath "application/octet-stream" in
             download ← storage_download filePathInStorage;
             let '(fileContent, message) :=
               match error download with
               | Some downloadError =>
                   (None, Some ("Could not download file content: " +:+ downloadError))
               | None =>
                   match data download with
                   | Some buffer => (Some (base64_encode buffer), None)
                   | None => (None, Some "File content not found in storage.")
                   end
               end in
             mret (respond 200
                     (JBlob (File.path file) (File.hash file) (File.size file)
                            (File.mode file) fileContent fileMime message))
         end
     end)
    (λ _, mret (respond 500 (JError "Internal server error")))).

End Controller.

(** The field checks of the mutation handlers pass. *)
Definition valid_fields (branch path userId : string) : Prop :=
  JS.truthy branch = true ∧ JS.truthy path = true ∧ JS.truthy userId = true.

Section NewRows.
Context `{Platform}.

(** The row [createFile] appends for [content] at [path]. *)
Definition new_file (path content : string) : File.t :=
  File.mk path (sha256_hex (base64_decode content))
          (Z.of_nat (length (base64_decode content))) 644.

(** The row [createFolder] appends for the folder [path]. *)
Definition new_gitkeep (path : string) : File.t :=
  File.mk (path_join path ".gitkeep") (sha256_hex []) 0 644.
End NewRows.

(** ** Sequences of mutations on one branch *)

Inductive Mutation : Type :=
| CreateFile (path content : string)
| CreateFolder (path : string)
| DeleteFile (path : string)
| DeleteFolder (path : string).

(** What may change between two requests: the time, and whether the storage
    service accepts uploads. *)
Record Conditions : Type := { at_time : Z; storage_fault : option string }.

Definition arrive (e : Conditions) (w : World) : World :=
  {| db := db w; bucket := bucket w; clock := at_time e; upload_fault := storage_fault e |}.

Record Step : Type := {
  before : World;
  mutation : Mutation;
  response : Response;
  after : World
}.

(** The snapshot a response announces, for the success responses of the
    four mutations. *)
Definition created (r : Response) : option uuid :=
  match json r with
  | JNewFile snapshotId _ => Some snapshotId
  | JNewFolder snapshotId _ => Some snapshotId
  | JDeleted snapshotId _ => Some snapshotId
  | _ => None
  end.

Section Sequences.
Context `{Platform}.
Variables projectId branch userId : string.

Definition request (m : Mutation) : World → Response * World :=
  match m with
  | CreateFile path content =>
      createFile projectId
        {| fb_branch := branch; fb_path := path; fb_content := Some content;
           fb_userId := userId |}
  | CreateFolder path =>
      createFolder projectId {| pb_branch := branch; pb_path := path; pb_userId := userId |}
  | DeleteFile path =>
      deleteFile projectId {| pb_branch := branch; pb_path := path; pb_userId := userId |}
  | DeleteFolder path =>
      deleteFolder projectId {| pb_branch := branch; pb_path := path; pb_userId := userId |}
  end.

(** The requests of a script, handled one after the other. *)
Fixpoint run (script : list (Conditions * Mutation)) (w : World) : list Step :=
  match script with
  | [] => []
  | (e, m) :: rest =>
      let w0 := arrive e w in
      let '(r, w1) := request m w0 in
      {| before := w0; mutation := m; response := r; after := w1 |} :: run rest w1
  end.

(** The world the script leaves behind. *)
Fixpoint outcome (script : list (Conditions * Mutation)) (w : World) : World :=
  match script with
  | [] => w
  | (e, m) :: rest => outcome rest (request m (arrive e w)).2
  end.

(** The change each mutation is described to make to a file set. *)
Definition described_delta (m : Mutation) (files : list File.t) : list File.t :=
  match m with
  | CreateFile path content =>
      filter (λ f, File.path f ≠ path) files ++ [new_file path content]
  | CreateFolder path =>
      filter (λ f, File.path f ≠ path_join path ".gitkeep") files ++ [new_gitkeep path]
  | DeleteFile path => filter (λ f, File.path f ≠ path) files
  | DeleteFolder path =>
      filter (λ f, JS.startsWith (File.path f) (folderPrefix path) ≠ true) files
  end.
End Sequences.

(** ** Reading a database *)

(** The identifier [resolveSnapshotId] returns on a database. *)
Definition snapshot_for (d : Database) (projectId : string) (branch : option string)
  : option uuid :=
  let latest := head (Pg.select_latest_snapshot_id projectId d) in
  match branch with
  | Some name =>
      if JS.truthy name then
        match Pg.select_branch_head projectId name d with
        | Some id :: _ => Some id
        | _ => latest
        end
      else latest
  | None => latest
  end.

(** The file set a mutation on [branch] starts from. *)
Definition current_files (d : Database) (projectId branch : string) : list File.t :=
  match snapshot_for d projectId (Some branch) with
  | Some id => Pg.select_snapshot_files id d
  | None => []
  end.

(** The database after [createNewSnapshot]: one more snapshot row, under the
    next identifier, and one more file row per file. *)
Definition snapshot_added (projectId userId title : string) (now : Z)
    (files : list File.t) (d : Database) : Database :=
  {| snapshots := snapshots d ++
       [{| snap_id := uuid_seq d; snap_project_id := projectId; snap_user_id := userId;
           snap_title := title; snap_description := None; snap_timestamp := now;
           snap_file_count := Z.of_nat (length files); snap_external_id := None |}];
     snapshot_files := snapshot_files d ++ (Pg.row_of_file (uuid_seq d) <$> files);
     branches := branches d;
     uuid_seq := S (uuid_seq d) |}.

Definition head_moved (projectId branch : string) (id : uuid) (now : Z) (d : Database)
  : Database :=
  (Pg.update_branch_head id now projectId branch d).2.

(** The database after the file rows of snapshot [id] were inserted. *)
Definition files_added (id : uuid) (files : list File.t) (d : Database) : Database :=
  {| snapshots := snapshots d;
     snapshot_files := snapshot_files d ++ (Pg.row_of_file id <$> files);
     branches := branches d;
     uuid_seq := uuid_seq d |}.

(** The world after a mutation committed: the new snapshot holds [files] and
    the rows of [branch] point at it. *)
Definition mutated (projectId branch userId title : string) (files : list File.t)
    (w : World) : World :=
  with_db w
    (head_moved projectId branch (uuid_seq (db w)) (clock w)
       (snapshot_added projectId userId title (clock w) files (db w))).

(** Integrity of the relational store: identifiers in use were drawn from
    the generator (so the next one is new: [snapshots.id] is a primary key),
    and a file row belongs to a snapshot that was inserted (the foreign key
    of [snapshot_files]). *)
Definition db_wf (d : Database) : Prop :=
  Forall (λ r, snap_id r < uuid_seq d)%nat (snapshots d) ∧
  Forall (λ r, sf_snapshot_id r < uuid_seq d)%nat (snapshot_files d).

(** The rows of [branches] for a project's branch. *)
Definition branch_rows (d : Database) (projectId branch : string) : list branches_row :=
  filter (λ r, br_project_id r = projectId ∧ br_name r = branch) (branches d).

(** The paths of the file rows of a snapshot. *)
Definition paths_of (d : Database) (id : uuid) : list string :=
  File.path <$> Pg.select_snapshot_files id d.

(** ** Properties of requests and scripts *)

(** [branch] names a branch of the project whose first row points at [id]:
    a branch name is supplied, a row for it exists, and the head pointer of
    that row is not null. *)
Definition branch_points_at (d : Database) (projectId : string)
    (branch : option string) (id : uuid) : Prop :=
  ∃ name row,
    branch = Some name ∧ name ≠ "" ∧
    head (branch_rows d projectId name) = Some row ∧
    br_head_snapshot_id row = Some id.

(** [r] is the project's most recent snapshot by timestamp, or null when
    the project has no snapshot. *)
Definition most_recent_snapshot (d : Database) (projectId : string)
    (r : option uuid) : Prop :=
  match r with
  | Some id =>
      ∃ row, row ∈ snapshots d ∧ snap_project_id row = projectId ∧ snap_id row = id ∧
             ∀ row', row' ∈ snapshots d → snap_project_id row' = projectId →
                     (snap_timestamp row' ≤ snap_timestamp row)%Z
  | None => ∀ row, row ∈ snapshots d → snap_project_id row ≠ projectId
  end.

(** A title that fits the column [snapshots.title], a [VARCHAR(255)]
    (db/schema.sql).  A character takes one byte at least, so a text of at
    most 255 bytes has at most 255 characters. *)
Definition title_fits (title : string) : Prop := (String.length title ≤ 255)%nat.


Section StepProperties.
Context `{Platform}.
Variables projectId branch userId : string.

End StepProperties.

Section FolderCommitted.
Context `{Platform}.

(** [createFolder] answered 201 and committed the folder: a new snapshot
    holds the branch's current files without any row at [path/.gitkeep],
    followed by the placeholder row at [path/.gitkeep] (size 0, hash of the
    empty content), and the head of the branch is that snapshot. *)
Definition folder_committed (projectId branch path userId : string) (w : World)
  : Prop :=
  ∃ id w',
    createFolder projectId
      {| pb_branch := branch; pb_path := path; pb_userId := userId |} w
    = (respond 201 (JNewFolder id path), w') ∧
    (id ∉ snap_id <$> snapshots (db w)) ∧
    id ∈ (snap_id <$> snapshots (db w')) ∧
    Pg.select_snapshot_files id (db w')
    = filter (λ f, File.path f ≠ path +:+ "/.gitkeep")
             (current_files (db w) projectId branch) ++
      [File.mk (path +:+ "/.gitkeep") (sha256_hex []) 0 644] ∧
    Pg.select_branch_head projectId branch (db w') = [Some id].
End FolderCommitted.

(** What a delete handler may write: nothing, or one snapshot row with its
    file rows and the head pointer of the branch's rows. *)
Definition writes_snapshot_and_head (projectId : string) (body : PathBody)
    (w w' : World) : Prop :=
  clock w' = clock w ∧ upload_fault w' = upload_fault w ∧
  (db w' = db w ∨
   ∃ title files,
     db w' = head_moved projectId (pb_branch body) (uuid_seq (db w)) (clock w)
               (snapshot_added projectId (pb_userId body) title (clock w) files (db w))).

(** [deleteFolder] treats [prefix] as the folder's prefix: the rows of the
    branch's current files whose path starts with [prefix] are exactly the
    rows removed; when there is none the answer is 404 and nothing changes,
    and otherwise the answer is 200 and the snapshot it announces holds all
    the other rows, unchanged. *)
Definition removes_prefix (prefix projectId branch path userId : string)
    (w : World) : Prop :=
  let existing := current_files (db w) projectId branch in
  let kept := filter (λ f, JS.startsWith (File.path f) prefix ≠ true) existing in
  let '(r, w') :=
    deleteFolder projectId
      {| pb_branch := branch; pb_path := path; pb_userId := userId |} w in
  if decide (length kept = length existing)
  then status r = 404%Z ∧ w' = w
  else status r = 200%Z ∧
       ∃ id, created r = Some id ∧ Pg.select_snapshot_files id (db w') = kept.

(** The characters with a special reading in a [LIKE] pattern. *)
Definition like_wildcard (c : ascii) : bool :=
  Ascii.eqb c Pg.percent || Ascii.eqb c Pg.underscore.

Definition like_special (c : ascii) : bool :=
  like_wildcard c || Ascii.eqb c Pg.backslash.

Fixpoint has_char (special : ascii → bool) (s : string) : bool :=
  match s with
  | EmptyString => false
  | String c s' => special c || has_char special s'
  end.

Section TreeSelection.
Context `{Platform}.

(** The rows [getTree] reads are exactly the rows of the snapshot whose
    path starts with the normalized base path and a slash (all its rows
    when the base path is empty). *)
Definition selects_prefix_rows (id : uuid) (path : option string) (d : Database)
  : Prop :=
  tree_rows id path d ≡ₚ
  filter (λ r, sf_snapshot_id r = id ∧
               JS.startsWith (sf_path r) (tree_likePrefix path) = true)
         (snapshot_files d).
End TreeSelection.

(** ** Worked inputs *)

(** A small platform on which the handlers can be run: the digest of some
    bytes is their own text behind a tag, base64 text is read as the bytes it
    is made of, paths are joined with a slash, no MIME type is known, an
    identifier prints as its number, and text is ordered byte by byte. *)
Definition toy_platform : Platform :=
  {| sha256_hex := λ bytes, "sha256-of:" +:+ string_of_list_byte bytes;
     base64_decode := list_byte_of_string;
     base64_encode := string_of_list_byte;
     path_join := λ a b, a +:+ "/" +:+ b;
     mime_lookup := λ _, None;
     uuid_text := λ id, pretty.pretty id;
     collate_le := String.leb |}.

Definition main_branch (projectId : string) (head_id : option uuid) : branches_row :=
  {| br_project_id := projectId; br_name := "main"; br_head_snapshot_id := head_id;
     br_updated_at := 0 |}.

(** A project ["p"] with its [main] branch and no snapshot yet. *)
Definition fresh_world : World :=
  {| db := {| snapshots := []; snapshot_files := [];
              branches := [main_branch "p" None]; uuid_seq := 0 |};
     bucket := ∅; clock := 1000; upload_fault := None |}.

Definition fair : Conditions := {| at_time := 2000; storage_fault := None |}.

(** The project after a README was created on [main]. *)
Definition readme_world : World :=
  (@createFile toy_platform "p"
     {| fb_branch := "main"; fb_path := "README.md"; fb_content := Some "hello";
        fb_userId := "u" |} fresh_world).2.

(** The same project while the storage service refuses uploads. *)
Definition outage_world : World :=
  {| db := db readme_world; bucket := bucket readme_world; clock := 3000;
     upload_fault := Some "Service unavailable" |}.

(** A project whose [main] branch points at a snapshot with a nested
    folder and a sibling whose name extends the folder's. *)
Definition nested_world : World :=
  {| db := {| snapshots :=
                [{| snap_id := 0; snap_project_id := "p"; snap_user_id := "u";
                    snap_title := "Initial"; snap_description := None;
                    snap_timestamp := 500; snap_file_count := 3;
                    snap_external_id := None |}];
              snapshot_files :=
                [Pg.row_of_file 0 (File.mk "a/b/.gitkeep" "h0" 0 644);
                 Pg.row_of_file 0 (File.mk "a/b/c/d.txt" "h1" 4 644);
                 Pg.row_of_file 0 (File.mk "a/bc/e.txt" "h2" 7 644)];
              branches := [main_branch "p" (Some 0)];
              uuid_seq := 1 |};
     bucket := ∅; clock := 1000; upload_fault := None |}.

(** A snapshot with one file under the folder [ab]. *)
Definition escape_db : Database :=
  {| snapshots := []; 
     snapshot_files := [Pg.row_of_file 0 (File.mk "ab/x" "h" 1 644)];
     branches := []; uuid_seq := 1 |}.

Definition demo_script : list (Conditions * Mutation) :=
  [(fair, CreateFile "README.md" "hello");
   (fair, CreateFolder "docs");
   (fair, CreateFile "docs/a.txt" "a");
   (fair, DeleteFile "README.md");
   (fair, DeleteFolder "docs")].

(** ** Listing the branches of a project *)

(** A row of the listing: [name] and [head_snapshot_id].  (The [id] column
    of [branches] is selected too; row identifiers of [branches] are not
    part of the store's model.) *)
Record BranchEntry : Type := { be_name : string; be_head_snapshot_id : option uuid }.

Inductive BranchesJson : Type :=
| JBranches (rows : list BranchEntry)
| JBranchesError (error : string).

Record BranchesResponse : Type := { branches_status : Z; branches_json : BranchesJson }.

Module PgBranches.

Section OrderByName.
Context `{Platform}.

(** [ORDER BY name ASC], as a stable insertion sort under the collation. *)
Fixpoint insert_by_name (r : branches_row) (sorted : list branches_row)
  : list branches_row :=
  match sorted with
  | [] => [r]
  | r' :: rest =>
      if collate_le (br_name r) (br_name r') then r :: sorted
      else r' :: insert_by_name r rest
  end.

Definition order_by_name (rows : list branches_row) : list branches_row :=
  foldr insert_by_name [] rows.

(** [SELECT id, name, head_snapshot_id FROM branches
     WHERE project_id = $1 ORDER BY name ASC] *)
Definition select_branches (project_id : string) (d : Database) : list branches_row :=
  order_by_name (filter (λ r, br_project_id r = project_id) (branches d)).
End OrderByName.

(** [INSERT INTO branches (project_id, name, head_snapshot_id, created_at,
     updated_at) VALUES ($1, 'main', $2, $3, $3)] *)
Definition insert_main (project_id : string) (head_id : option uuid) (now : Z)
    (d : Database) : unit * Database :=
  (tt,
   {| snapshots := snapshots d;
      snapshot_files := snapshot_files d;
      branches := branches d ++
        [{| br_project_id := project_id; br_name := "main";
            br_head_snapshot_id := head_id; br_updated_at := now |}];
      uuid_seq := uuid_seq d |}).

End PgBranches.

Section Branches.
Context `{Platform}.

Definition branch_entry (r : branches_row) : BranchEntry :=
  {| be_name := br_name r; be_head_snapshot_id := br_head_snapshot_id r |}.

(** [pool.connect()], the handler body and [client.release()], for a
    handler with its own kind of answer. *)
Definition with_client_for {A : Type} (failed : A) (handler : Async A) (w : World)
  : A * World :=
  match handler {| world := w; tx := None |} with
  | (Returned r, c) => (r, world c)
  | (Thrown _, c) => (failed, world c)
  end.

(** GET /api/projects/:id/branches *)
Definition getBranches (projectId : string) : World → BranchesResponse * World :=
  let failed :=
    {| branches_status := 500; branches_json := JBranchesError "Internal server error" |} in
  with_client_for failed (try_catch
    (now ← Date_now;
     existing ← query (PgBranches.select_branches projectId);
     (if decide (length existing = 0)%nat then
        latest ← query (Pg.select_latest_snapshot_id projectId);
        let headId := head latest in
        execute (PgBranches.insert_main projectId headId now)
      else mret tt) ;;
     result ← query (PgBranches.select_branches projectId);
     mret {| branches_status := 200;
             branches_json := JBranches (branch_entry <$> result) |})
    (λ _, mret failed)).
End Branches.

(** All the rows of [branches] of a project. *)
Definition project_branches (d : Database) (projectId : string) : list branches_row :=
  filter (λ r, br_project_id r = projectId) (branches d).

(** ** The README of a branch *)

(** The columns of [project_readmes] named by the two statements below; its
    conflict target [(project_id, branch)] is the table's unique key. *)
Record readme_row : Type := {
  rd_project_id : string;
  rd_branch : string;
  rd_content : string;
  rd_updated_at : Z;
  rd_updated_by : option string
}.

Inductive ReadmeJson : Type :=
| JReadme (content : string) (updated_at : option Z) (updated_by : option string)
| JReadmeError (error : string).

Record ReadmeResponse : Type := { readme_status : Z; readme_json : ReadmeJson }.

(** The body of [PUT /api/projects/:id/readme]; an absent field is
    [undefined]. *)
Record ReadmeBody : Type := {
  rb_branch : option string;
  rb_content : option string;
  rb_userId : option string
}.

Definition readme_of (projectId branch : string) (r : readme_row) : Prop :=
  rd_project_id r = projectId ∧ rd_branch r = branch.

#[global] Instance readme_of_dec (projectId branch : string) (r : readme_row)
  : Decision (readme_of projectId branch r).
Proof. unfold readme_of. apply _. Defined.

(** [SELECT content, updated_at, updated_by FROM project_readmes
     WHERE project_id = $1 AND branch = $2 LIMIT 1] *)
Definition select_readme (projectId branch : string) (t : list readme_row)
  : list readme_row :=
  Pg.limit_1 (filter (readme_of projectId branch) t).

(** [INSERT INTO project_readmes (...) VALUES (...)
     ON CONFLICT (project_id, branch) DO UPDATE SET content = EXCLUDED.content,
     updated_at = EXCLUDED.updated_at, updated_by = EXCLUDED.updated_by]: a
    row with the key of the new row takes its content, time and author;
    without one the new row is inserted. *)
Definition upsert_readme (row : readme_row) (t : list readme_row) : list readme_row :=
  if decide (filter (readme_of (rd_project_id row) (rd_branch row)) t = [])
  then t ++ [row]
  else (λ r, if decide (readme_of (rd_project_id row) (rd_branch row) r) then row else r)
         <$> t.

(** GET /api/projects/:id/readme?branch=main, on the table [t].  The
    default of a destructured field replaces [undefined] only. *)
Definition getReadme (projectId : string) (branch : option string) (t : list readme_row)
  : ReadmeResponse :=
  let branch := default "main" branch in
  match select_readme projectId branch t with
  | [] => {| readme_status := 200; readme_json := JReadme "" None None |}
  | r :: _ =>
      {| readme_status := 200;
         readme_json := JReadme (rd_content r) (Some (rd_updated_at r)) (rd_updated_by r) |}
  end.

(** PUT /api/projects/:id/readme { branch, content, userId }, at time [now]
    on the table [t]. *)
Definition updateReadme (projectId : string) (body : ReadmeBody) (now : Z)
    (t : list readme_row) : ReadmeResponse * list readme_row :=
  let branch := default "main" (rb_branch body) in
  match rb_content body with
  | None =>
      ({| readme_status := 400; readme_json := JReadmeError "content is required" |}, t)
  | Some content =>
      let row := {| rd_project_id := projectId; rd_branch := branch;
                    rd_content := content; rd_updated_at := now;
                    rd_updated_by := rb_userId body |} in
      ({| readme_status := 200;
          readme_json := JReadme content (Some now) (rb_userId body) |},
       upsert_readme row t)
  end.

(** One row at most for each project and branch. *)
Definition readme_keys_unique (t : list readme_row) : Prop :=
  NoDup ((λ r, (rd_project_id r, rd_branch r)) <$> t).

(** ** Further properties of requests and scripts *)

Section MoreStepProperties.
Context `{Platform}.
Variables projectId userId : string.

(** A step that announces a snapshot inserted exactly one snapshot row under
    that identifier; the row names the project, the user and the time of the
    request, and its [file_count] is the number of file rows of the
    snapshot. *)
Definition step_records_snapshot (st : Step) : Prop :=
  ∀ id, created (response st) = Some id →
    ∃ row,
      filter (λ r, snap_id r = id) (snapshots (db (after st))) = [row] ∧
      snap_project_id row = projectId ∧
      snap_user_id row = userId ∧
      snap_timestamp row = clock (before st) ∧
      snap_file_count row
      = Z.of_nat (length (Pg.select_snapshot_files id (db (after st)))).
End MoreStepProperties.

(** The two constraints of db/schema.sql on the tables of snapshots: the
    primary key of [snapshots], and the foreign key of [snapshot_files] to
    it. *)
Definition keys_respected (d : Database) : Prop :=
  NoDup (snap_id <$> snapshots d) ∧
  Forall (λ r, sf_snapshot_id r ∈ snap_id <$> snapshots d) (snapshot_files d).

(** The entries of a tree listing. *)
Definition tree_entries (r : Response) : list TreeEntry :=
  match json r with
  | JTree entries => entries
  | _ => []
  end.

(** The part of a row's path after the first [n] characters, as [getTree]
    cuts it. *)
Definition rel_path (n : nat) (row : snapshot_files_row) : string :=
  JS.slice_from n (sf_path row).

(** [entry] lists the first segment of [rel]: a file entry, with the row's
    size, when [rel] is the entry's name, and a directory entry, without
    size, when [rel] goes on after the name and a slash. *)
Definition lists_segment (entry : TreeEntry) (rel : string) (size : Z) : Prop :=
  (rel = entry_name entry ∧ entry_type entry = type_file ∧ entry_size entry = Some size) ∨
  (∃ rest, rel = entry_name entry +:+ "/" +:+ rest) ∧
  entry_type entry = type_dir ∧ entry_size entry = None.

(** The same without the size: [entry] is a file entry named [rel], or a
    directory entry, without size, named by what [rel] has before its first
    slash. *)
Definition lists_first_segment (entry : TreeEntry) (rel : string) : Prop :=
  (rel = entry_name entry ∧ entry_type entry = type_file) ∨
  (∃ rest, rel = entry_name entry +:+ "/" +:+ rest) ∧
  entry_type entry = type_dir ∧ entry_size entry = None.

Definition is_slash (c : ascii) : bool := Ascii.eqb c JS.slash.

(** What the loop of [getTree] keeps true of the set [seen] and the array
    [entries] after the rows [rows], cut after [prefix]: [seen] holds the
    names listed; no name is listed twice; a name holds no slash; every entry
    lists the first segment of some row; and the first segment of every row
    is listed. *)
Definition tree_listing_ok (prefix : string) (rows : list snapshot_files_row)
    (acc : gset string * list TreeEntry) : Prop :=
  let n := String.length prefix in
  (∀ name, name ∈ acc.1 ↔ name ∈ entry_name <$> acc.2) ∧
  NoDup (entry_name <$> acc.2) ∧
  (∀ e, e ∈ acc.2 →
        has_char is_slash (entry_name e) = false ∧
        ∃ row, row ∈ rows ∧ lists_segment e (rel_path n row) (sf_size row)) ∧
  (∀ row, row ∈ rows →
          ∃ e, e ∈ acc.2 ∧
               (rel_path n row = entry_name e ∨
                ∃ rest, rel_path n row = entry_name e +:+ "/" +:+ rest)).

(** [n] slashes. *)
Fixpoint slashes (n : nat) : string :=
  match n with
  | O => EmptyString
  | S n' => String JS.slash (slashes n')
  end.

(** ** More worked inputs *)

(** A project that has neither a branch nor a snapshot. *)
Definition bare_world : World :=
  {| db := {| snapshots := []; snapshot_files := []; branches := []; uuid_seq := 0 |};
     bucket := ∅; clock := 1000; upload_fault := None |}.

(** A project whose [main] branch holds a file named [docs] beside the files
    of a folder [docs]. *)
Definition shadow_world : World :=
  {| db := {| snapshots :=
                [{| snap_id := 0; snap_project_id := "p"; snap_user_id := "u";
                    snap_title := "Initial"; snap_description := None;
                    snap_timestamp := 500; snap_file_count := 2;
                    snap_external_id := None |}];
              snapshot_files :=
                [Pg.row_of_file 0 (File.mk "docs" "h0" 3 644);
                 Pg.row_of_file 0 (File.mk "docs/guide.md" "h1" 9 644)];
              branches := [main_branch "p" (Some 0)];
              uuid_seq := 1 |};
     bucket := ∅; clock := 1000; upload_fault := None |}.

(** A project without branches whose one snapshot is stamped later than the
    requests to come. *)
Definition stale_world : World :=
  {| db := {| snapshots :=
                [{| snap_id := 0; snap_project_id := "p"; snap_user_id := "u";
                    snap_title := "Imported"; snap_description := None;
                    snap_timestamp := 5000; snap_file_count := 1;
                    snap_external_id := None |}];
              snapshot_files := [Pg.row_of_file 0 (File.mk "README.md" "h0" 5 644)];
              branches := [];
              uuid_seq := 1 |};
     bucket := ∅; clock := 1000; upload_fault := None |}.

(** The project of [bare_world] while the storage service refuses uploads. *)
Definition bare_outage_world : World :=
  {| db := db bare_world; bucket := ∅; clock := 1000;
     upload_fault := Some "Service unavailable" |}.

(** The project of [nested_world] with a second branch, [dev], on the same
    snapshot. *)
Definition dev_branch : branches_row :=
  {| br_project_id := "p"; br_name := "dev"; br_head_snapshot_id := Some 0;
     br_updated_at := 700 |}.

Definition two_branch_world : World :=
  {| db := {| snapshots := snapshots (db nested_world);
              snapshot_files := snapshot_files (db nested_world);
              branches := [main_branch "p" (Some 0); dev_branch];
              uuid_seq := 1 |};
     bucket := ∅; clock := 1000; upload_fault := None |}.

Definition at_clock (t : Z) : Conditions := {| at_time := t; storage_fault := None |}.

(** Creations that write twice to the same paths. *)
Definition overwrite_script : list (Conditions * Mutation) :=
  [(at_clock 2000, CreateFile "README.md" "hello");
   (at_clock 3000, CreateFolder "docs");
   (at_clock 4000, CreateFile "README.md" "again");
   (at_clock 5000, CreateFolder "docs");
   (at_clock 6000, CreateFile "docs/.gitkeep" "kept")].

(** A table of READMEs with one row. *)
Definition readme_table : list readme_row :=
  [{| rd_project_id := "q"; rd_branch := "main"; rd_content := "# q";
      rd_updated_at := 10; rd_updated_by := None |}].

(** ** Facts about the string primitives *)

Module JSFacts.

Lemma startsWith_iff (s p : string) :
  JS.startsWith s p = true ↔ ∃ rest, s = p +:+ rest.
Proof.
  revert s. induction p as [|c p IH]; intros s; simpl.
  - split; [intros _; by exists s | done].
  - destruct s as [|d s]; simpl.
    + split; [done | intros [rest Hr]; discriminate].
    + rewrite andb_true_iff, IH, Ascii.eqb_eq. split.
      * intros [-> [rest ->]]. by exists rest.
      * intros [rest Hr]. injection Hr as -> ->. split; [done | by exists rest].
Qed.

Lemma endsWith_iff (s x : string) :
  JS.endsWith s x = true ↔ ∃ front, s = front +:+ x.
Proof.
  induction s as [|c s IH]; cbn [JS.endsWith].
  - rewrite orb_false_r, String.eqb_eq. split.
    + intros <-. by exists "".
    + intros [front Hf]. destruct front; simpl in Hf; [done | discriminate].
  - rewrite orb_true_iff, String.eqb_eq, IH. split.
    + intros [<- | [front ->]]; [by exists "" | by exists (String c front)].
    + intros [front Hf]. destruct front as [|d front]; simpl in Hf.
      * by left.
      * injection Hf as -> ->. right. by exists front.
Qed.

Lemma app_nil (b : string) : "" +:+ b = b.
Proof. reflexivity. Qed.

Lemma app_cons (c : ascii) (a b : string) : String c a +:+ b = String c (a +:+ b).
Proof. reflexivity. Qed.

Lemma append_length (a b : string) :
  String.length (a +:+ b) = (String.length a + String.length b)%nat.
Proof.
  induction a as [|x a IH]; [done |].
  rewrite app_cons. simpl. by rewrite IH.
Qed.

Lemma append_assoc (a b c : string) : (a +:+ b) +:+ c = a +:+ (b +:+ c).
Proof.
  induction a as [|x a IH]; [done |].
  rewrite !app_cons. by rewrite IH.
Qed.

End JSFacts.

(** ** Running the helpers *)

Section Runs.
Context `{Platform}.

Lemma bind_run {A B : Type} (m : Async A) (k : A → Async B) (c c' : Client) (a : A) :
  m c = (Returned a, c') → (m ≫= k) c = k a c'.
Proof. intros Hm. unfold mbind, Async_bind. by rewrite Hm. Qed.

Lemma bind_thrown {A B : Type} (m : Async A) (k : A → Async B) (c c' : Client) e :
  m c = (Thrown e, c') → (m ≫= k) c = (Thrown e, c').
Proof. intros Hm. unfold mbind, Async_bind. by rewrite Hm. Qed.

Lemma resolveSnapshotId_run (projectId : string) (branch : option string) (c : Client) :
  resolveSnapshotId projectId branch c = (Returned (snapshot_for (view c) projectId branch), c).
Proof.
  unfold resolveSnapshotId, snapshot_for.
  destruct branch as [name|]; [destruct (JS.truthy name) |]; try reflexivity.
  unfold mbind, Async_bind, query.
  by destruct (Pg.select_branch_head projectId name (view c)) as [|[id|] rest].
Qed.

Lemma getFilesInSnapshot_run (id : uuid) (c : Client) :
  getFilesInSnapshot id c = (Returned (Pg.select_snapshot_files id (view c)), c).
Proof. reflexivity. Qed.

Lemma await_all_inserts (id : uuid) (files : list File.t) (w : World) (d : Database) :
  await_all ((λ file, execute (Pg.insert_snapshot_file id file)) <$> files)
            {| world := w; tx := Some d |}
  = (Returned tt, {| world := w; tx := Some (files_added id files d) |}).
Proof.
  revert d. induction files as [|f files IH]; intros d.
  - unfold files_added. simpl. rewrite app_nil_r. by destruct d.
  - cbn [fmap list_fmap await_all].
    erewrite bind_run; [| reflexivity].
    cbn [view tx world]. rewrite IH. unfold files_added. cbn.
    by rewrite <- app_assoc.
Qed.

Lemma createNewSnapshot_run (projectId userId title : string) (files : list File.t)
    (w : World) (d : Database) :
  createNewSnapshot projectId userId files (Some title) None None
                    {| world := w; tx := Some d |}
  = (Returned (uuid_seq d),
     {| world := w;
        tx := Some (snapshot_added projectId userId title (clock w) files d) |}).
Proof.
  unfold createNewSnapshot.
  erewrite bind_run; [| reflexivity].
  erewrite bind_run; [| reflexivity].
  cbn [view tx world default].
  destruct (decide (0 < length files)%nat) as [Hlen|Hlen].
  - erewrite bind_run; [| apply await_all_inserts]. reflexivity.
  - destruct files; [| simpl in Hlen; lia].
    unfold mbind, Async_bind, mret, Async_ret, snapshot_added. simpl.
    by rewrite app_nil_r.
Qed.

Lemma updateBranchHead_run (projectId branch : string) (id : uuid) (w : World)
    (d : Database) :
  updateBranchHead projectId branch id {| world := w; tx := Some d |}
  = (Returned tt, {| world := w; tx := Some (head_moved projectId branch id (clock w) d) |}).
Proof. reflexivity. Qed.

End Runs.

(** ** Running the handlers *)

Section Handlers.
Context `{Platform}.

(** The common tail of the four mutations: insert the snapshot, move the
    head, commit, answer. *)
Lemma commit_run (projectId branch userId title : string) (files : list File.t)
    (answer : uuid → Response) (w : World) :
  (newSnapshotId ← createNewSnapshot projectId userId files (Some title) None None;
   updateBranchHead projectId branch newSnapshotId ;;
   COMMIT ;;
   mret (answer newSnapshotId)) {| world := w; tx := Some (db w) |}
  = (Returned (answer (uuid_seq (db w))),
     {| world := mutated projectId branch userId title files w; tx := None |}).
Proof.
  erewrite bind_run; [| apply createNewSnapshot_run].
  erewrite bind_run; [| apply updateBranchHead_run].
  reflexivity.
Qed.

Lemma valid_fields_check (branch path userId : string) :
  valid_fields branch path userId →
  negb (JS.truthy branch) || negb (JS.truthy path) || negb (JS.truthy userId) = false.
Proof. by intros (-> & -> & ->). Qed.

Lemma deleteFile_run (projectId branch path userId : string) (w : World) :
  valid_fields branch path userId →
  deleteFile projectId {| pb_branch := branch; pb_path := path; pb_userId := userId |} w
  = match snapshot_for (db w) projectId (Some branch) with
    | None => (respond 404 (JError "Branch or project has no snapshots."), w)
    | Some id =>
        let existingFiles := Pg.select_snapshot_files id (db w) in
        let updatedFiles := filter (λ f, File.path f ≠ path) existingFiles in
        if decide (length existingFiles = length updatedFiles)
        then (respond 404 (JError ("File not found at path: " +:+ path)), w)
        else (respond 200 (JDeleted (uuid_seq (db w)) path),
              mutated projectId branch userId ("Delete file: " +:+ path) updatedFiles w)
    end.
Proof.
  intros Hv. unfold deleteFile. cbn [pb_branch pb_path pb_userId].
  rewrite (valid_fields_check _ _ _ Hv).
  unfold with_client, try_catch.
  erewrite bind_run; [| reflexivity].
  erewrite bind_run; [| apply resolveSnapshotId_run].
  cbn [view tx world].
  destruct (snapshot_for (db w) projectId (Some branch)) as [id|]; [| reflexivity].
  erewrite bind_run; [| apply getFilesInSnapshot_run].
  cbn [view tx world].
  case_decide; [reflexivity |].
  by rewrite commit_run.
Qed.

Lemma deleteFolder_run (projectId branch path userId : string) (w : World) :
  valid_fields branch path userId →
  deleteFolder projectId {| pb_branch := branch; pb_path := path; pb_userId := userId |} w
  = match snapshot_for (db w) projectId (Some branch) with
    | None => (respond 404 (JError "Branch or project has no snapshots."), w)
    | Some id =>
        let existingFiles := Pg.select_snapshot_files id (db w) in
        let updatedFiles :=
          filter (λ f, JS.startsWith (File.path f) (folderPrefix path) ≠ true)
                 existingFiles in
        if decide (length existingFiles = length updatedFiles)
        then (respond 404
                (JError ("Folder not found or already empty at path: " +:+ path)), w)
        else (respond 200 (JDeleted (uuid_seq (db w)) path),
              mutated projectId branch userId ("Delete folder: " +:+ path) updatedFiles w)
    end.
Proof.
  intros Hv. unfold deleteFolder. cbn [pb_branch pb_path pb_userId].
  rewrite (valid_fields_check _ _ _ Hv).
  unfold with_client, try_catch.
  erewrite bind_run; [| reflexivity].
  erewrite bind_run; [| apply resolveSnapshotId_run].
  cbn [view tx world].
  destruct (snapshot_for (db w) projectId (Some branch)) as [id|]; [| reflexivity].
  erewrite bind_run; [| apply getFilesInSnapshot_run].
  cbn [view tx world].
  case_decide; [reflexivity |].
  by rewrite commit_run.
Qed.

Lemma createFile_run (projectId branch path content userId : string) (w : World) :
  valid_fields branch path userId →
  createFile projectId
    {| fb_branch := branch; fb_path := path; fb_content := Some content;
       fb_userId := userId |} w
  = match upload_fault w with
    | Some message =>
        (respond 500 (JError ("Failed to upload file content for " +:+ path +:+
                              " to Supabase: " +:+ message)), w)
    | None =>
        let newFile := new_file path content in
        let allFiles :=
          filter (λ f, File.path f ≠ path) (current_files (db w) projectId branch) ++
          [newFile] in
        (respond 201 (JNewFile (uuid_seq (db w)) newFile),
         mutated projectId branch userId ("Create file: " +:+ path) allFiles
           (with_bucket w
              (<[storage_key projectId (File.hash newFile) := base64_decode content]>
                 (bucket w))))
    end.
Proof.
  intros Hv. unfold createFile. cbn [fb_branch fb_path fb_userId fb_content].
  rewrite (valid_fields_check _ _ _ Hv).
  unfold with_client, try_catch, current_files.
  erewrite bind_run; [| reflexivity].
  erewrite bind_run; [| apply resolveSnapshotId_run].
  cbn [view tx world].
  set (existing := match snapshot_for (db w) projectId (Some branch) with
                   | Some id => Pg.select_snapshot_files id (db w)
                   | None => []
                   end).
  erewrite (bind_run _ _ _ _ existing).
  2:{ subst existing. by destruct (snapshot_for (db w) projectId (Some branch)). }
  cbn zeta. unfold storage_upload at 1.
  unfold mbind at 1, Async_bind at 1. cbn [world].
  destruct (upload_fault w) as [message|] eqn:Hfault; [reflexivity |].
  rewrite (commit_run projectId branch userId _ _ _
             (with_bucket w _)).
  reflexivity.
Qed.

Lemma createFolder_run (projectId branch path userId : string) (w : World) :
  valid_fields branch path userId →
  createFolder projectId {| pb_branch := branch; pb_path := path; pb_userId := userId |} w
  = let newGitkeepFile := new_gitkeep path in
    let allFiles :=
      filter (λ f, File.path f ≠ path_join path ".gitkeep")
             (current_files (db w) projectId branch) ++ [newGitkeepFile] in
    (respond 201 (JNewFolder (uuid_seq (db w)) path),
     mutated projectId branch userId ("Create folder: " +:+ path) allFiles
       match upload_fault w with
       | Some _ => w
       | None =>
           with_bucket w
             (<[storage_key projectId (File.hash newGitkeepFile) := []]> (bucket w))
       end).
Proof.
  intros Hv. unfold createFolder. cbn [pb_branch pb_path pb_userId].
  rewrite (valid_fields_check _ _ _ Hv).
  unfold with_client, try_catch, current_files.
  erewrite bind_run; [| reflexivity].
  erewrite bind_run; [| apply resolveSnapshotId_run].
  cbn [view tx world].
  set (existing := match snapshot_for (db w) projectId (Some branch) with
                   | Some id => Pg.select_snapshot_files id (db w)
                   | None => []
                   end).
  erewrite (bind_run _ _ _ _ existing).
  2:{ subst existing. by destruct (snapshot_for (db w) projectId (Some branch)). }
  cbn zeta. unfold storage_upload at 1.
  unfold mbind at 1, Async_bind at 1. cbn [world].
  destruct (upload_fault w) as [message|] eqn:Hfault.
  - erewrite bind_run; [| reflexivity].
    by rewrite (commit_run projectId branch userId _ _ _ w).
  - erewrite bind_run; [| reflexivity].
    by rewrite (commit_run projectId branch userId _ _ _ (with_bucket w _)).
Qed.

End Handlers.

(** ** Facts about the relational store *)

Section Store.

Lemma filter_none {A : Type} (P : A → Prop) `{∀ x, Decision (P x)} (l : list A) :
  Forall (λ x, ¬ P x) l → filter P l = [].
Proof.
  induction 1 as [|x l Hx _ IH]; [done |].
  rewrite filter_cons. by destruct (decide (P x)).
Qed.

Lemma filter_all {A : Type} (P : A → Prop) `{∀ x, Decision (P x)} (l : list A) :
  Forall P l → filter P l = l.
Proof.
  induction 1 as [|x l Hx _ IH]; [done |].
  rewrite filter_cons. destruct (decide (P x)); [by rewrite IH | done].
Qed.

Lemma filter_fmap_stable {A : Type} (P : A → Prop) `{∀ x, Decision (P x)}
    (f : A → A) (l : list A) :
  (∀ x, P (f x) ↔ P x) → filter P (f <$> l) = f <$> filter P l.
Proof.
  intros Hf. induction l as [|x l IH]; [done |].
  rewrite fmap_cons, !filter_cons, IH.
  destruct (decide (P (f x))) as [Hx|Hx], (decide (P x)) as [Hx'|Hx']; try done.
  - exfalso. by apply Hx', Hf.
  - exfalso. by apply Hx, Hf.
Qed.

Lemma file_of_row_of_file (id : uuid) (f : File.t) :
  Pg.file_of_row (Pg.row_of_file id f) = f.
Proof. by destruct f. Qed.

Lemma files_of_new_rows (id : uuid) (files : list File.t) :
  Pg.file_of_row <$>
    filter (λ r, sf_snapshot_id r = id) (Pg.row_of_file id <$> files) = files.
Proof.
  induction files as [|f files IH]; [done |].
  rewrite fmap_cons, filter_cons. cbn [Pg.row_of_file sf_snapshot_id].
  destruct (decide (id = id)); [| done].
  rewrite fmap_cons, IH. by destruct f.
Qed.

Lemma other_new_rows (id id' : uuid) (files : list File.t) :
  id' ≠ id →
  filter (λ r, sf_snapshot_id r = id') (Pg.row_of_file id <$> files) = [].
Proof.
  intros Hne. apply filter_none, Forall_fmap, Forall_forall.
  intros f _. simpl. congruence.
Qed.

Variables projectId branch userId title : string.
Variables (now now' : Z) (files : list File.t) (d : Database).

Local Abbreviation d' :=
  (head_moved projectId branch (uuid_seq d) now'
     (snapshot_added projectId userId title now files d)).

(** The new snapshot holds exactly the files it was created with. *)
Lemma new_snapshot_files :
  db_wf d → Pg.select_snapshot_files (uuid_seq d) d' = files.
Proof.
  intros [_ Hfiles]. unfold Pg.select_snapshot_files. cbn.
  rewrite filter_app, fmap_app, files_of_new_rows.
  rewrite filter_none; [done |].
  eapply Forall_impl; [exact Hfiles |]. intros r Hr. simpl in *. lia.
Qed.

(** The snapshots that were there keep their files. *)
Lemma old_snapshot_files (id : uuid) :
  (id < uuid_seq d)%nat →
  Pg.select_snapshot_files id d' = Pg.select_snapshot_files id d.
Proof.
  intros Hid. unfold Pg.select_snapshot_files. cbn.
  rewrite filter_app, other_new_rows by lia. by rewrite app_nil_r.
Qed.

Lemma mutated_wf : db_wf d → db_wf d'.
Proof.
  intros [Hsnaps Hfiles]. split; cbn.
  - apply Forall_app. split.
    + eapply Forall_impl; [exact Hsnaps |]. intros r Hr. simpl in *. lia.
    + repeat constructor.
  - apply Forall_app. split.
    + eapply Forall_impl; [exact Hfiles |]. intros r Hr. simpl in *. lia.
    + apply Forall_fmap, Forall_forall. intros f _. simpl. lia.
Qed.

Lemma mutated_seq : uuid_seq d' = S (uuid_seq d).
Proof. reflexivity. Qed.

Lemma mutated_snapshot_ids :
  snap_id <$> snapshots d' = (snap_id <$> snapshots d) ++ [uuid_seq d].
Proof. cbn. by rewrite fmap_app. Qed.

Lemma mutated_branch_rows :
  branch_rows d' projectId branch
  = Pg.set_head (uuid_seq d) now' projectId branch <$> branch_rows d projectId branch.
Proof.
  unfold branch_rows. cbn.
  apply filter_fmap_stable. intros r. unfold Pg.set_head.
  by case_decide.
Qed.

(** After the update the branch points at the new snapshot. *)
Lemma mutated_branch_head :
  branch_rows d projectId branch ≠ [] →
  Pg.select_branch_head projectId branch d' = [Some (uuid_seq d)].
Proof.
  intros Hrows. unfold Pg.select_branch_head.
  change (filter _ (branches d')) with (branch_rows d' projectId branch).
  rewrite mutated_branch_rows.
  destruct (branch_rows d projectId branch) as [|r rows] eqn:Hr; [done |].
  assert (Hin : r ∈ branch_rows d projectId branch) by (rewrite Hr; left).
  apply list_elem_of_filter in Hin as [Hin _].
  cbn. unfold Pg.set_head. by rewrite decide_True.
Qed.

Lemma mutated_branch_exists :
  branch_rows d projectId branch ≠ [] → branch_rows d' projectId branch ≠ [].
Proof.
  rewrite mutated_branch_rows. by destruct (branch_rows d projectId branch).
Qed.

(** The next request on the branch starts from the new snapshot. *)
Lemma mutated_snapshot_for :
  JS.truthy branch = true →
  branch_rows d projectId branch ≠ [] →
  snapshot_for d' projectId (Some branch) = Some (uuid_seq d).
Proof.
  intros Hb Hrows. unfold snapshot_for.
  by rewrite Hb, mutated_branch_head.
Qed.

End Store.

(** ** The rows the head update leaves alone *)

Section BranchRows.
Variables projectId branch : string.

Lemma set_head_other (id : uuid) (now : Z) (r : branches_row) :
  ¬ (br_project_id r = projectId ∧ br_name r = branch) →
  Pg.set_head id now projectId branch r = r.
Proof. intros Hother. unfold Pg.set_head. by rewrite decide_False. Qed.

Lemma set_head_key (id : uuid) (now : Z) (r : branches_row) :
  br_project_id (Pg.set_head id now projectId branch r) = br_project_id r ∧
  br_name (Pg.set_head id now projectId branch r) = br_name r.
Proof. unfold Pg.set_head. by case_decide. Qed.

Lemma fmap_unchanged {A : Type} (f : A → A) (l : list A) :
  Forall (λ x, f x = x) l → f <$> l = l.
Proof. induction 1 as [|x l Hx _ IH]; [done |]. by rewrite fmap_cons, Hx, IH. Qed.

Lemma head_moved_other_branch (id : uuid) (now : Z) (d : Database)
    (projectId' branch' : string) :
  (projectId', branch') ≠ (projectId, branch) →
  branch_rows (head_moved projectId branch id now d) projectId' branch'
  = branch_rows d projectId' branch'.
Proof.
  intros Hother. unfold branch_rows, head_moved. cbn.
  rewrite filter_fmap_stable.
  - apply fmap_unchanged, Forall_forall.
    intros r [[Hp Hb] _]%list_elem_of_filter.
    apply set_head_other. intros [Hp' Hb']. apply Hother. congruence.
  - intros r. destruct (set_head_key id now r) as [-> ->]. done.
Qed.

Lemma head_moved_no_row (id : uuid) (now : Z) (d : Database) :
  branch_rows d projectId branch = [] →
  branches (head_moved projectId branch id now d) = branches d.
Proof.
  intros Hnone. unfold head_moved. cbn.
  apply fmap_unchanged, Forall_forall. intros r Hr.
  apply set_head_other. intros Hkey.
  assert (Hin : r ∈ branch_rows d projectId branch) by by apply list_elem_of_filter.
  rewrite Hnone in Hin. by apply elem_of_nil in Hin.
Qed.

End BranchRows.

(** ** One request of a script *)

Section Requests.
Context `{Platform}.
Variables projectId branch userId : string.

Lemma fields_cases (b p u : string) :
  valid_fields b p u ∨
  negb (JS.truthy b) || negb (JS.truthy p) || negb (JS.truthy u) = true.
Proof.
  unfold valid_fields.
  destruct (JS.truthy b), (JS.truthy p), (JS.truthy u); simpl; auto.
Qed.

(** A request either leaves the database as it was and announces no
    snapshot, or commits one snapshot, holding the described delta of the
    branch's current files, and moves the head to it. *)
Lemma request_effect (m : Mutation) (w : World) :
  (created (request projectId branch userId m w).1 = None ∧
   db (request projectId branch userId m w).2 = db w) ∨
  (∃ title,
     created (request projectId branch userId m w).1 = Some (uuid_seq (db w)) ∧
     JS.truthy branch = true ∧
     db (request projectId branch userId m w).2
     = head_moved projectId branch (uuid_seq (db w)) (clock w)
         (snapshot_added projectId userId title (clock w)
            (described_delta m (current_files (db w) projectId branch)) (db w))).
Proof.
  destruct m as [path content|path|path|path]; unfold request;
    (destruct (fields_cases branch path userId) as [Hv|Hv];
     [| left; unfold createFile, createFolder, deleteFile, deleteFolder; cbn;
        by rewrite Hv]).
  - rewrite createFile_run by done.
    destruct (upload_fault w); [by left |].
    right. eexists. by destruct Hv.
  - rewrite createFolder_run by done.
    right. eexists. destruct Hv. by destruct (upload_fault w).
  - rewrite deleteFile_run by done. unfold current_files.
    destruct (snapshot_for (db w) projectId (Some branch)) as [id|]; [| by left].
    cbn zeta. case_decide; [by left |].
    right. eexists. by destruct Hv.
  - rewrite deleteFolder_run by done. unfold current_files.
    destruct (snapshot_for (db w) projectId (Some branch)) as [id|]; [| by left].
    cbn zeta. case_decide; [by left |].
    right. eexists. by destruct Hv.
Qed.

Lemma request_wf (m : Mutation) (w : World) :
  db_wf (db w) → db_wf (db (request projectId branch userId m w).2).
Proof.
  intros Hwf. destruct (request_effect m w) as [[_ ->]|(title & _ & _ & ->)]; [done |].
  by apply mutated_wf.
Qed.


Lemma request_seq (m : Mutation) (w : World) :
  (uuid_seq (db w) ≤ uuid_seq (db (request projectId branch userId m w).2))%nat.
Proof.
  destruct (request_effect m w) as [[_ ->]|(title & _ & _ & ->)]; [done |].
  rewrite mutated_seq. lia.
Qed.

(** Immutability: a request changes the files of no snapshot in the store. *)
Lemma request_old_files (m : Mutation) (w : World) (id : uuid) :
  (id < uuid_seq (db w))%nat →
  Pg.select_snapshot_files id (db (request projectId branch userId m w).2)
  = Pg.select_snapshot_files id (db w).
Proof.
  intros Hid. destruct (request_effect m w) as [[_ ->]|(title & _ & _ & ->)]; [done |].
  by apply old_snapshot_files.
Qed.

Lemma outcome_old_files (script : list (Conditions * Mutation)) (w : World) (id : uuid) :
  (id < uuid_seq (db w))%nat →
  Pg.select_snapshot_files id (db (outcome projectId branch userId script w))
  = Pg.select_snapshot_files id (db w).
Proof.
  revert w. induction script as [|[e m] script IH]; intros w Hid; [done |].
  cbn [outcome]. rewrite IH.
  - by rewrite request_old_files.
  - pose proof (request_seq m (arrive e w)). cbn [arrive db] in *. lia.
Qed.

End Requests.

(** ** Worked runs *)

Example demo_script_statuses :
  (status ∘ response) <$> @run toy_platform "p" "main" "u" demo_script fresh_world
  = [201; 201; 201; 200; 200]%Z.
Proof. vm_compute. reflexivity. Qed.

Example demo_script_heads :
  (λ st, Pg.select_branch_head "p" "main" (db (after st)))
    <$> @run toy_platform "p" "main" "u" demo_script fresh_world
  = [[Some 0]; [Some 1]; [Some 2]; [Some 3]; [Some 4]].
Proof. vm_compute. reflexivity. Qed.

Example demo_script_paths :
  (λ st, paths_of (db (after st)) (default 0 (created (response st))))
    <$> @run toy_platform "p" "main" "u" demo_script fresh_world
  = [["README.md"]; ["README.md"; "docs/.gitkeep"];
     ["README.md"; "docs/.gitkeep"; "docs/a.txt"];
     ["docs/.gitkeep"; "docs/a.txt"]; []].
Proof. vm_compute. reflexivity. Qed.

(** ** The tree resolver *)

Section Resolver.
Context `{Platform}.

Lemma newest_in (rows : list snapshots_row) (r : snapshots_row) :
  Pg.newest rows = Some r →
  r ∈ rows ∧ ∀ r', r' ∈ rows → (snap_timestamp r' ≤ snap_timestamp r)%Z.
Proof.
  revert r. induction rows as [|x rows IH]; intros r; [done |].
  cbn [Pg.newest]. destruct (Pg.newest rows) as [r0|] eqn:Hrest.
  - destruct (IH r0 eq_refl) as [Hin Hmax].
    destruct (Z.ltb_spec (snap_timestamp x) (snap_timestamp r0)) as [Hlt|Hge];
      intros [= <-]; (split; [first [by left | by right] |]);
      intros r' [->|Hr']%elem_of_cons; try lia; specialize (Hmax _ Hr'); lia.
  - intros [= <-]. destruct rows as [|y rows].
    + split; [by left |].
      intros r' [->|Hr']%elem_of_cons; [lia | by apply elem_of_nil in Hr'].
    + cbn [Pg.newest] in Hrest. by destruct (Pg.newest rows); [case_match |].
Qed.

Lemma newest_none (rows : list snapshots_row) : Pg.newest rows = None → rows = [].
Proof.
  destruct rows as [|x rows]; [done |]. cbn [Pg.newest].
  by destruct (Pg.newest rows); [case_match |].
Qed.


(** The fallback of [resolveSnapshotId] is the project's most recent
    snapshot. *)
Lemma latest_most_recent (d : Database) (projectId : string) :
  most_recent_snapshot d projectId (head (Pg.select_latest_snapshot_id projectId d)).
Proof.
  unfold Pg.select_latest_snapshot_id, Pg.latest_project_snapshot, most_recent_snapshot.
  destruct (Pg.newest _) as [r|] eqn:Hnew; cbn.
  - apply newest_in in Hnew as [[Hp Hin]%list_elem_of_filter Hmax].
    exists r. split_and!; [done.. |].
    intros r' Hr' Hp'. apply Hmax, list_elem_of_filter. done.
  - apply newest_none in Hnew. intros row Hrow Hp.
    assert (Hin : row ∈ filter (λ r, snap_project_id r = projectId) (snapshots d))
      by by apply list_elem_of_filter.
    rewrite Hnew in Hin. by apply elem_of_nil in Hin.
Qed.

Lemma snapshot_for_branch (d : Database) (projectId : string)
    (branch : option string) (id : uuid) :
  branch_points_at d projectId branch id → snapshot_for d projectId branch = Some id.
Proof.
  intros (name & row & -> & Hname & Hrow & Hhead).
  unfold snapshot_for, Pg.select_branch_head.
  change (filter _ (branches d)) with (branch_rows d projectId name).
  destruct name as [|c name]; [done |]. cbn [JS.truthy].
  destruct (branch_rows d projectId (String c name)) as [|r rows]; [done |].
  injection Hrow as ->. cbn. by rewrite Hhead.
Qed.

Lemma snapshot_for_fallback (d : Database) (projectId : string)
    (branch : option string) :
  (∀ id, ¬ branch_points_at d projectId branch id) →
  snapshot_for d projectId branch = head (Pg.select_latest_snapshot_id projectId d).
Proof.
  intros Hno. unfold snapshot_for.
  destruct branch as [name|]; [| done].
  destruct (JS.truthy name) eqn:Hname; [| done].
  unfold Pg.select_branch_head.
  change (filter _ (branches d)) with (branch_rows d projectId name).
  destruct (branch_rows d projectId name) as [|r rows] eqn:Hrows; [done |].
  cbn. destruct (br_head_snapshot_id r) as [id|] eqn:Hhead; [| done].
  exfalso. apply (Hno id). exists name, r. rewrite Hrows.
  split_and!; try done. by intros ->.
Qed.

(** C2. [resolveSnapshotId] always returns, and leaves the connection as
    it was.  It returns the branch's head snapshot when a branch name is
    supplied, a row for the project and that name exists, and the row's
    head pointer is not null.  In every other case (no branch given,
    branch not found, head null) it returns the project's most recent
    snapshot by timestamp, and then it returns null exactly when the
    project has no snapshot at all. *)
Theorem resolveSnapshotId_head_or_latest (projectId : string)
    (branch : option string) (c : Client) :
  ∃ r, resolveSnapshotId projectId branch c = (Returned r, c) ∧
       (∀ id, branch_points_at (view c) projectId branch id → r = Some id) ∧
       ((∀ id, ¬ branch_points_at (view c) projectId branch id) →
        most_recent_snapshot (view c) projectId r ∧
        (r = None ↔
         ∀ row, row ∈ snapshots (view c) → snap_project_id row ≠ projectId)).
Proof.
  exists (snapshot_for (view c) projectId branch).
  split; [apply resolveSnapshotId_run |]. split.
  - apply snapshot_for_branch.
  - intros Hno. rewrite (snapshot_for_fallback _ _ _ Hno).
    pose proof (latest_most_recent (view c) projectId) as Hrecent.
    split; [done |].
    destruct (head (Pg.select_latest_snapshot_id projectId (view c))) as [id|].
    + split; [done |]. intros Hnone.
      destruct Hrecent as (row & Hin & Hp & _). by destruct (Hnone row Hin).
    + done.
Qed.

End Resolver.

(** A branch with a head resolves to it; an empty branch name, like no
    branch, resolves to the latest snapshot; a project without snapshots
    resolves to null. *)
Example resolveSnapshotId_examples :
  (resolveSnapshotId "p" (Some "main") {| world := nested_world; tx := None |}).1
  = Returned (Some 0) ∧
  (resolveSnapshotId "p" (Some "") {| world := nested_world; tx := None |}).1
  = Returned (Some 0) ∧
  (resolveSnapshotId "p" (Some "dev") {| world := nested_world; tx := None |}).1
  = Returned (Some 0) ∧
  (resolveSnapshotId "p" (Some "main") {| world := fresh_world; tx := None |}).1
  = Returned None ∧
  (resolveSnapshotId "q" None {| world := nested_world; tx := None |}).1
  = Returned None.
Proof. vm_compute. done. Qed.

(** ** Scripts of mutations *)

Section Scripts.
Context `{Platform}.
Variables projectId branch userId : string.




Lemma wf_ids_below (d : Database) (id : uuid) :
  db_wf d → id ∈ snap_id <$> snapshots d → (id < uuid_seq d)%nat.
Proof.
  intros [Hsnaps _] (r & -> & Hr)%list_elem_of_fmap.
  by apply (proj1 (Forall_forall _ _) Hsnaps).
Qed.






End Scripts.


(** The run of that counterexample: 201, a snapshot with the file, and no
    head. *)
Example createFile_rowless :
  let '(r, w') :=
    @createFile toy_platform "p"
      {| fb_branch := "main"; fb_path := "README.md"; fb_content := Some "hello";
         fb_userId := "u" |} bare_world in
  status r = 201%Z ∧ created r = Some 0 ∧
  paths_of (db w') 0 = ["README.md"] ∧
  Pg.select_branch_head "p" "main" (db w') = [] ∧
  branches (db w') = [].
Proof. vm_compute. done. Qed.

(** ** Failure policies of the mutations *)

Section Policies.
Context `{Platform}.

(** C5. [deleteFile], called with its required fields when the branch's
    current snapshot holds no row at exactly [path], answers 404 and leaves
    everything as it was: no snapshot row is added and the branch head is
    not moved. *)
Theorem deleteFile_missing_path_not_found
    (projectId branch path userId : string) (w : World) :
  valid_fields branch path userId →
  Forall (λ f, File.path f ≠ path) (current_files (db w) projectId branch) →
  ∃ message,
    deleteFile projectId
      {| pb_branch := branch; pb_path := path; pb_userId := userId |} w
    = (respond 404 (JError message), w).
Proof.
  intros Hv Hmissing. rewrite deleteFile_run by done.
  unfold current_files in Hmissing.
  destruct (snapshot_for (db w) projectId (Some branch)) as [id|]; [| by eexists].
  cbn zeta. rewrite (filter_all _ _ Hmissing).
  rewrite decide_True by done. by eexists.
Qed.

(** C7. [createFile], called with its required fields while the upload of
    the content fails, answers 500 and leaves everything as it was: no
    snapshot row, no file row, and the branch head untouched. *)
Theorem createFile_upload_failure_aborts
    (projectId branch path content userId message : string) (w : World) :
  valid_fields branch path userId →
  upload_fault w = Some message →
  ∃ e,
    createFile projectId
      {| fb_branch := branch; fb_path := path; fb_content := Some content;
         fb_userId := userId |} w
    = (respond 500 (JError e), w).
Proof.
  intros Hv Hfault. rewrite createFile_run by done. rewrite Hfault. by eexists.
Qed.

(** C8, as the code has it.  [createFolder], called with its required
    fields on a consistent store, for a folder whose title fits the column
    and whose path [path.join] only extends, answers 201 whether or not the
    placeholder's upload fails: a new snapshot is created, and its files are
    the current files without any row at [path/.gitkeep], followed by the
    placeholder row (path [path/.gitkeep], size 0, hash of the empty
    content).  The head of the branch is moved to the snapshot when the
    branch has a row; when it has none, no row is inserted and the table
    [branches] stays as it was.  When the upload fails nothing is stored in
    the bucket. *)
Theorem createFolder_soft_fail (projectId branch path userId : string) (w : World) :
  valid_fields branch path userId →
  db_wf (db w) →
  title_fits ("Create folder: " +:+ path) →
  path_join path ".gitkeep" = path +:+ "/.gitkeep" →
  ∃ id w',
    createFolder projectId
      {| pb_branch := branch; pb_path := path; pb_userId := userId |} w
    = (respond 201 (JNewFolder id path), w') ∧
    (id ∉ snap_id <$> snapshots (db w)) ∧
    id ∈ (snap_id <$> snapshots (db w')) ∧
    Pg.select_snapshot_files id (db w')
    = filter (λ f, File.path f ≠ path +:+ "/.gitkeep")
             (current_files (db w) projectId branch) ++
      [File.mk (path +:+ "/.gitkeep") (sha256_hex []) 0 644] ∧
    (branch_rows (db w) projectId branch ≠ [] →
     Pg.select_branch_head projectId branch (db w') = [Some id]) ∧
    (branch_rows (db w) projectId branch = [] → branches (db w') = branches (db w)) ∧
    (upload_fault w ≠ None → bucket w' = bucket w).
Proof.
  intros Hv Hwf _ Hjoin. rewrite createFolder_run by done. cbn zeta.
  unfold new_gitkeep. rewrite Hjoin.
  eexists _, _. split; [reflexivity |].
  unfold mutated.
  destruct (upload_fault w) as [message|]; cbn [db with_db with_bucket clock];
    (split_and!;
     [ intros Hin; apply wf_ids_below in Hin; [lia | done]
     | rewrite mutated_snapshot_ids, elem_of_app, list_elem_of_singleton; by right
     | by apply new_snapshot_files
     | by apply mutated_branch_head
     | intros Hnone;
       exact (head_moved_no_row projectId branch _ _
                (snapshot_added _ _ _ _ _ (db w)) Hnone)
     | done ]).
Qed.

(** C10. The delete mutations perform no blob-store operation: for every
    invocation of [deleteFile] or [deleteFolder], successful or not, the
    bucket afterwards is the bucket before; all they write is at most one
    snapshot row, its file rows, and the head pointer of the branch. *)
Theorem delete_mutations_frame (projectId : string) (body : PathBody) (w : World) :
  bucket (deleteFile projectId body w).2 = bucket w ∧
  bucket (deleteFolder projectId body w).2 = bucket w ∧
  writes_snapshot_and_head projectId body w (deleteFile projectId body w).2 ∧
  writes_snapshot_and_head projectId body w (deleteFolder projectId body w).2.
Proof.
  destruct body as [branch path userId]. unfold writes_snapshot_and_head.
  cbn [pb_branch pb_userId].
  destruct (fields_cases branch path userId) as [Hv|Hv].
  - rewrite deleteFile_run, deleteFolder_run by done.
    destruct (snapshot_for (db w) projectId (Some branch)) as [id|];
      [| by split_and!; try left].
    cbn zeta. repeat case_decide; cbn [snd]; split_and!;
      try done; try (by left); right; by eexists _, _.
  - unfold deleteFile, deleteFolder. cbn [pb_branch pb_path pb_userId].
    rewrite Hv. by split_and!; try left.
Qed.

End Policies.

(** C8 as stated does not hold.  The project of [bare_outage_world] has no
    row for [main] and its storage refuses uploads: [createFolder] answers
    201 and creates the snapshot with the placeholder, but no branch head is
    advanced to it. *)
Lemma createFolder_rowless_counterexample :
  ¬ @folder_committed toy_platform "p" "main" "docs" "u" bare_outage_world.
Proof.
  intros (id & w' & Hrun & _ & _ & _ & Hhead).
  vm_compute in Hrun. injection Hrun as Hid Hw. subst id w'.
  vm_compute in Hhead. discriminate Hhead.
Qed.

(** The run of that counterexample. *)
Example createFolder_rowless :
  let '(r, w') :=
    @createFolder toy_platform "p"
      {| pb_branch := "main"; pb_path := "docs"; pb_userId := "u" |}
      bare_outage_world in
  r = respond 201 (JNewFolder 0 "docs") ∧
  paths_of (db w') 0 = ["docs/.gitkeep"] ∧
  Pg.select_branch_head "p" "main" (db w') = [] ∧
  bucket w' = bucket bare_outage_world.
Proof. vm_compute. done. Qed.

(** ** Deleting a folder *)

Section DeleteFolder.

Lemma folderPrefix_plain (path : string) :
  JS.endsWith path "/" = false → folderPrefix path = path +:+ "/".
Proof. unfold folderPrefix. by intros ->. Qed.

Lemma folderPrefix_slashed (path : string) :
  JS.endsWith path "/" = true → folderPrefix path = path.
Proof. unfold folderPrefix. by intros ->. Qed.

Lemma deleteFolder_removes_folderPrefix (projectId branch path userId : string)
    (w : World) :
  valid_fields branch path userId →
  db_wf (db w) →
  removes_prefix (folderPrefix path) projectId branch path userId w.
Proof.
  intros Hv Hwf. unfold removes_prefix. rewrite deleteFolder_run by done.
  unfold current_files.
  destruct (snapshot_for (db w) projectId (Some branch)) as [id|]; cbn zeta.
  - case_decide as Hlen.
    + by rewrite decide_True.
    + rewrite decide_False by done. split; [done |].
      eexists. split; [reflexivity |]. by apply new_snapshot_files.
  - by rewrite decide_True.
Qed.

(** C4, as the code has it.  [deleteFolder], called with its required
    fields on a consistent store for a folder whose title fits the column,
    removes from the branch's current files
    exactly the rows whose path starts with the folder prefix, which is
    [path] itself when [path] already ends in a slash and [path] followed
    by a slash otherwise: every such row, at any depth, is removed; every
    other row is kept unchanged; and the answer is 404, with nothing
    changed, when no row has the prefix.  For a [path] that does not end
    in a slash the prefix is [path] followed by a slash. *)
Theorem deleteFolder_removes_prefixed_rows (projectId branch path userId : string)
    (w : World) :
  valid_fields branch path userId →
  db_wf (db w) →
  title_fits ("Delete folder: " +:+ path) →
  removes_prefix (folderPrefix path) projectId branch path userId w ∧
  folderPrefix path = (if JS.endsWith path "/" then path else path +:+ "/") ∧
  (JS.endsWith path "/" = false →
   removes_prefix (path +:+ "/") projectId branch path userId w).
Proof.
  intros Hv Hwf _. split_and!.
  - by apply deleteFolder_removes_folderPrefix.
  - done.
  - intros Hplain. rewrite <- (folderPrefix_plain _ Hplain).
    by apply deleteFolder_removes_folderPrefix.
Qed.

End DeleteFolder.

(** Deleting [a/b] removes [a/b/.gitkeep] and [a/b/c/d.txt] and keeps
    [a/bc/e.txt]. *)
Example deleteFolder_nested :
  let '(r, w') :=
    deleteFolder "p" {| pb_branch := "main"; pb_path := "a/b"; pb_userId := "u" |}
                 nested_world in
  r = respond 200 (JDeleted 1 "a/b") ∧
  current_files (db w') "p" "main" = [File.mk "a/bc/e.txt" "h2" 7 644].
Proof. vm_compute. done. Qed.

(** Deleting a folder that has no row: 404. *)
Example deleteFolder_absent :
  deleteFolder "p" {| pb_branch := "main"; pb_path := "a/x"; pb_userId := "u" |}
               nested_world
  = (respond 404 (JError "Folder not found or already empty at path: a/x"), nested_world).
Proof. vm_compute. done. Qed.

(** C4 as stated does not hold.  With [path = "a/b/"] no row of the current
    files starts with [path] followed by a slash, which would mean 404 and no
    change; the handler takes ["a/b/"] itself as the prefix, removes the two
    rows under it and answers 200. *)
Lemma deleteFolder_trailing_slash_counterexample :
  ¬ removes_prefix ("a/b/" +:+ "/") "p" "main" "a/b/" "u" nested_world.
Proof. vm_compute. intros [Hstatus _]. discriminate Hstatus. Qed.

(** ** The rows read by getTree *)

Section Tree.
Context `{Platform}.

Lemma insert_by_path_perm (r : snapshot_files_row) (sorted : list snapshot_files_row) :
  Pg.insert_by_path r sorted ≡ₚ r :: sorted.
Proof.
  induction sorted as [|r' rest IH]; [done |].
  cbn [Pg.insert_by_path]. destruct (collate_le (sf_path r) (sf_path r')); [done |].
  rewrite IH. apply Permutation_swap.
Qed.

(** [ORDER BY] selects nothing and drops nothing. *)
Lemma order_by_path_perm (rows : list snapshot_files_row) :
  Pg.order_by_path rows ≡ₚ rows.
Proof.
  induction rows as [|r rows IH]; [done |].
  unfold Pg.order_by_path in *. cbn [foldr].
  by rewrite insert_by_path_perm, IH.
Qed.

Lemma like_any (text : string) : Pg.like text "%" = true.
Proof.
  cbn [Pg.like]. change (Ascii.eqb "%" Pg.percent) with true. cbn match.
  induction text as [|c text IH]; [done |].
  cbn [Pg.like JS.truthy negb orb]. exact IH.
Qed.

(** A pattern made of a prefix without special characters and a final
    [%] matches exactly the texts that start with the prefix. *)
Lemma like_plain_prefix (prefix text : string) :
  has_char like_special prefix = false →
  Pg.like text (prefix +:+ "%") = JS.startsWith text prefix.
Proof.
  revert text. induction prefix as [|c prefix IH]; intros text Hplain.
  - apply like_any.
  - cbn [has_char] in Hplain. apply orb_false_elim in Hplain as [Hc Hplain].
    unfold like_special, like_wildcard in Hc.
    apply orb_false_elim in Hc as [Hc Hbackslash].
    apply orb_false_elim in Hc as [Hpercent Hunderscore].
    rewrite JSFacts.app_cons. cbn [Pg.like JS.startsWith].
    rewrite Hpercent, Hunderscore, Hbackslash.
    destruct text as [|d text]; [done |]. by rewrite IH.
Qed.

Lemma has_char_app (special : ascii → bool) (a b : string) :
  has_char special (a +:+ b) = has_char special a || has_char special b.
Proof.
  induction a as [|c a IH]; [done |].
  rewrite JSFacts.app_cons. cbn [has_char]. by rewrite IH, orb_assoc.
Qed.

Lemma likePrefix_plain (path : option string) :
  has_char like_special (tree_basePath path) = false →
  has_char like_special (tree_likePrefix path) = false.
Proof.
  intros Hplain. unfold tree_likePrefix.
  destruct (JS.truthy (tree_basePath path)); [| done].
  by rewrite has_char_app, Hplain.
Qed.

Lemma tree_rows_member (id : uuid) (path : option string) (d : Database)
    (r : snapshot_files_row) :
  r ∈ tree_rows id path d ↔
  r ∈ snapshot_files d ∧ sf_snapshot_id r = id ∧
  Pg.like (sf_path r) (tree_likePrefix path +:+ "%") = true.
Proof.
  unfold tree_rows, Pg.select_tree_files.
  rewrite order_by_path_perm, list_elem_of_filter. tauto.
Qed.

(** C9, as the code has it.  The rows [getTree] reads are a true
    slash-terminated prefix match for every base path that, once its outer
    slashes are stripped, holds none of the characters [LIKE] reads
    specially: the wildcards [%] and [_], and the backslash, which is the
    pattern's escape character.  And for some base path with a wildcard a
    row whose path does not start with the base path and a slash is read
    as well, because the prefix goes into the pattern unescaped. *)
Theorem getTree_prefix_selection :
  (∀ (id : uuid) (path : option string) (d : Database),
     has_char like_special (tree_basePath path) = false →
     selects_prefix_rows id path d) ∧
  (∃ (id : uuid) (path : option string) (d : Database) (r : snapshot_files_row),
     has_char like_wildcard (tree_basePath path) = true ∧
     r ∈ tree_rows id path d ∧
     JS.startsWith (sf_path r) (tree_likePrefix path) = false).
Proof.
  split.
  - intros id path d Hplain. unfold selects_prefix_rows, tree_rows, Pg.select_tree_files.
    rewrite order_by_path_perm.
    erewrite list_filter_iff; [reflexivity |].
    intros r. cbn beta. by rewrite like_plain_prefix by by apply likePrefix_plain.
  - exists 0, (Some "a_"), escape_db, (Pg.row_of_file 0 (File.mk "ab/x" "h" 1 644)).
    split_and!; [done | | done].
    apply tree_rows_member. split_and!; [by left | done | done].
Qed.

End Tree.

(** Listing [a_] reads the files of the folder [ab]. *)
Example getTree_underscore :
  @getTree toy_platform "p" None (Some "a_")
    {| db := {| snapshots := snapshots (db nested_world);
                snapshot_files := snapshot_files escape_db;
                branches := []; uuid_seq := 1 |};
       bucket := ∅; clock := 0; upload_fault := None |}
  = (respond 200 (JTree [{| entry_name := "x"; entry_type := type_file;
                            entry_size := Some 1%Z |}]),
     {| db := {| snapshots := snapshots (db nested_world);
                 snapshot_files := snapshot_files escape_db;
                 branches := []; uuid_seq := 1 |};
        bucket := ∅; clock := 0; upload_fault := None |}).
Proof. vm_compute. reflexivity. Qed.

(** C9 as stated does not hold.  The base path [a\b] holds neither [%] nor
    [_], yet the rows read for it are not the rows under [a\b/]: the
    backslash escapes the [b], so the pattern matches the file [ab/x]. *)
Lemma getTree_backslash_counterexample :
  has_char like_wildcard (@tree_basePath (Some "a\b")) = false ∧
  ¬ @selects_prefix_rows toy_platform 0 (Some "a\b") escape_db.
Proof.
  split; [reflexivity |].
  intros Hperm. apply Permutation_length in Hperm. vm_compute in Hperm. discriminate.
Qed.

(** ** Reading a file back *)

Section Blob.
Context `{Platform}.

Lemma getBlob_run (projectId : string) (branch path : option string) (w : World) :
  getBlob projectId branch path w
  = match snapshot_for (db w) projectId branch with
    | None => (respond 404 (JNoContent "No snapshot for this branch/project"), w)
    | Some id =>
        match Pg.select_file_by_path id (default "" path) (db w) with
        | [] => (respond 404 (JNoContent "File not found"), w)
        | f :: _ =>
            let key := projectId +:+ "/" +:+ uuid_text id +:+ "/" +:+ File.hash f in
            (respond 200
               (JBlob (File.path f) (File.hash f) (File.size f) (File.mode f)
                  (base64_encode <$> bucket w !! key)
                  (mime_or (default "" path) "application/octet-stream")
                  match bucket w !! key with
                  | Some _ => None
                  | None => Some "Could not download file content: Object not found"
                  end), w)
        end
    end.
Proof.
  unfold getBlob, with_client, try_catch.
  erewrite bind_run; [| apply resolveSnapshotId_run].
  cbn [view tx world].
  destruct (snapshot_for (db w) projectId branch) as [id|]; [| reflexivity].
  erewrite bind_run; [| reflexivity].
  cbn [view tx world].
  destruct (Pg.select_file_by_path id (default "" path) (db w)) as [|f rest];
    [reflexivity |].
  unfold storage_download, mbind, Async_bind. cbn [world].
  by destruct (bucket w !! _).
Qed.

Lemma select_file_by_path_files (id : uuid) (path : string) (d : Database) :
  Pg.select_file_by_path id path d
  = Pg.limit_1 (filter (λ f, File.path f = path) (Pg.select_snapshot_files id d)).
Proof.
  unfold Pg.select_file_by_path, Pg.select_snapshot_files. f_equal.
  induction (snapshot_files d) as [|r rows IH]; [done |].
  rewrite !filter_cons.
  destruct (decide (sf_snapshot_id r = id)) as [Hid|Hid].
  - rewrite fmap_cons, filter_cons. cbn [Pg.file_of_row File.path].
    destruct (decide (sf_path r = path)) as [Hp|Hp].
    + rewrite decide_True by done. by rewrite fmap_cons, IH.
    + rewrite decide_False by tauto. done.
  - rewrite decide_False by tauto. done.
Qed.

Lemma replaced_file_by_path (path : string) (row : File.t) (files : list File.t) :
  File.path row = path →
  filter (λ f, File.path f = path) (filter (λ f, File.path f ≠ path) files ++ [row])
  = [row].
Proof.
  intros Hrow. rewrite filter_app, filter_none, filter_all; [done | |].
  - by repeat constructor.
  - apply Forall_forall. by intros f [Hf _]%list_elem_of_filter.
Qed.

(** [createFile] stores under [projectId/hash]; [getBlob] asks for
    [projectId/snapshotId/hash].  The two keys never coincide. *)
Lemma upload_key_differs (projectId snapshot hash : string) :
  storage_key projectId hash ≠ projectId +:+ "/" +:+ snapshot +:+ "/" +:+ hash.
Proof.
  unfold storage_key. intros Heq. apply (f_equal String.length) in Heq.
  rewrite !JSFacts.append_length in Heq. cbn in Heq. lia.
Qed.

(** C1, on the code.  After a successful [createFile] on a branch, [getBlob]
    for the same path answers with the metadata of the new row, whose hash
    is the digest of the decoded content; but its content field is whatever
    the bucket held, before the upload, under the key built from the new
    snapshot's identifier, and not the bytes just uploaded: it is null
    when nothing was stored there. *)
Theorem getBlob_after_createFile_reads_other_key
    (projectId branch path content userId : string) (w : World) :
  valid_fields branch path userId →
  db_wf (db w) →
  branch_rows (db w) projectId branch ≠ [] →
  upload_fault w = None →
  let id := uuid_seq (db w) in
  let bytes := base64_decode content in
  let other_key := projectId +:+ "/" +:+ uuid_text id +:+ "/" +:+ sha256_hex bytes in
  ∃ w1,
    createFile projectId
      {| fb_branch := branch; fb_path := path; fb_content := Some content;
         fb_userId := userId |} w
    = (respond 201 (JNewFile id (new_file path content)), w1) ∧
    bucket w1 !! storage_key projectId (sha256_hex bytes) = Some bytes ∧
    getBlob projectId (Some branch) (Some path) w1
    = (respond 200
         (JBlob path (sha256_hex bytes) (Z.of_nat (length bytes)) 644
            (base64_encode <$> bucket w !! other_key)
            (mime_or path "application/octet-stream")
            match bucket w !! other_key with
            | Some _ => None
            | None => Some "Could not download file content: Object not found"
            end), w1).
Proof.
  intros Hv Hwf Hrows Hfault. cbn zeta.
  rewrite createFile_run, Hfault by done. cbn zeta.
  eexists. split; [reflexivity |]. split.
  - unfold mutated. cbn [bucket with_db with_bucket new_file File.hash].
    apply lookup_insert_eq.
  - rewrite getBlob_run. unfold mutated. cbn [db with_db with_bucket clock bucket].
    destruct Hv as (Hb & _ & _).
    rewrite mutated_snapshot_for by done.
    rewrite select_file_by_path_files, new_snapshot_files by done.
    rewrite replaced_file_by_path by done.
    cbn [Pg.limit_1 take default new_file File.hash File.path File.size File.mode].
    cbn zeta.
    by rewrite lookup_insert_ne by apply upload_key_differs.
Qed.

End Blob.

(** ** The theorems at worked inputs *)

Lemma fresh_world_wf : db_wf (db fresh_world).
Proof. split; constructor. Defined.

Lemma fresh_world_main : branch_rows (db fresh_world) "p" "main" ≠ [].
Proof. vm_compute. intros Hnil. discriminate Hnil. Defined.

Lemma readme_world_wf : db_wf (db readme_world).
Proof. vm_compute. split; repeat constructor. Defined.

Lemma readme_world_main : branch_rows (db readme_world) "p" "main" ≠ [].
Proof. vm_compute. intros Hnil. discriminate Hnil. Defined.

Lemma nested_world_wf : db_wf (db nested_world).
Proof. vm_compute. split; repeat constructor. Defined.

Lemma short_title (title : string) :
  (String.length title <=? 255)%nat = true → title_fits title.
Proof. intros Hlen. apply Nat.leb_le. exact Hlen. Defined.


Lemma main_fields (path : string) :
  JS.truthy path = true → valid_fields "main" path "u".
Proof. intros Hpath. repeat split. exact Hpath. Defined.

Lemma getBlob_after_createFile_reads_other_key_witness :
  valid_fields "main" "README.md" "u" ∧
  db_wf (db fresh_world) ∧
  branch_rows (db fresh_world) "p" "main" ≠ [] ∧
  upload_fault fresh_world = None ∧
  ∃ w1,
    @createFile toy_platform "p"
      {| fb_branch := "main"; fb_path := "README.md"; fb_content := Some "hello";
         fb_userId := "u" |} fresh_world
    = (respond 201 (JNewFile 0 (@new_file toy_platform "README.md" "hello")), w1) ∧
    bucket w1 !! "p/sha256-of:hello" = Some (list_byte_of_string "hello") ∧
    @getBlob toy_platform "p" (Some "main") (Some "README.md") w1
    = (respond 200
         (JBlob "README.md" "sha256-of:hello" 5 644 None "application/octet-stream"
                (Some "Could not download file content: Object not found")), w1).
Proof.
  split_and!;
    [ exact (main_fields "README.md" eq_refl) | exact fresh_world_wf
    | exact fresh_world_main | reflexivity | ].
  exact (@getBlob_after_createFile_reads_other_key toy_platform
           "p" "main" "README.md" "hello" "u" fresh_world
           (main_fields "README.md" eq_refl) fresh_world_wf fresh_world_main eq_refl).
Defined.


Lemma deleteFolder_removes_prefixed_rows_witness :
  valid_fields "main" "a/b" "u" ∧
  db_wf (db nested_world) ∧
  title_fits ("Delete folder: " +:+ "a/b") ∧
  removes_prefix (folderPrefix "a/b") "p" "main" "a/b" "u" nested_world ∧
  folderPrefix "a/b" = "a/b/" ∧
  (JS.endsWith "a/b" "/" = false →
   removes_prefix ("a/b" +:+ "/") "p" "main" "a/b" "u" nested_world).
Proof.
  split; [exact (main_fields "a/b" eq_refl) |].
  split; [exact nested_world_wf |].
  split; [exact (short_title "Delete folder: a/b" eq_refl) |].
  exact (deleteFolder_removes_prefixed_rows "p" "main" "a/b" "u" nested_world
           (main_fields "a/b" eq_refl) nested_world_wf
           (short_title "Delete folder: a/b" eq_refl)).
Defined.

Lemma readme_world_no_license :
  Forall (λ f, File.path f ≠ "LICENSE") (current_files (db readme_world) "p" "main").
Proof. vm_compute. repeat constructor. intros Hpath. discriminate Hpath. Defined.

Lemma deleteFile_missing_path_not_found_witness :
  valid_fields "main" "LICENSE" "u" ∧
  Forall (λ f, File.path f ≠ "LICENSE") (current_files (db readme_world) "p" "main") ∧
  ∃ message,
    deleteFile "p" {| pb_branch := "main"; pb_path := "LICENSE"; pb_userId := "u" |}
               readme_world
    = (respond 404 (JError message), readme_world).
Proof.
  split_and!; [exact (main_fields "LICENSE" eq_refl) | exact readme_world_no_license |].
  exact (deleteFile_missing_path_not_found "p" "main" "LICENSE" "u" readme_world
           (main_fields "LICENSE" eq_refl) readme_world_no_license).
Defined.



(** The snapshots of that script, on a branch without a row and on a branch
    with one: the second [README.md], the second [docs] and the file written
    over the placeholder each replace the row at their path. *)
Example overwrite_script_paths :
  (λ st, paths_of (db (after st)) (default 0 (created (response st))))
    <$> @run toy_platform "p" "main" "u" overwrite_script bare_world
  = [["README.md"]; ["README.md"; "docs/.gitkeep"]; ["docs/.gitkeep"; "README.md"];
     ["README.md"; "docs/.gitkeep"]; ["README.md"; "docs/.gitkeep"]] ∧
  (λ st, paths_of (db (after st)) (default 0 (created (response st))))
    <$> @run toy_platform "p" "main" "u" overwrite_script fresh_world
  = [["README.md"]; ["README.md"; "docs/.gitkeep"]; ["docs/.gitkeep"; "README.md"];
     ["README.md"; "docs/.gitkeep"]; ["README.md"; "docs/.gitkeep"]].
Proof. vm_compute. done. Qed.

Lemma createFile_upload_failure_aborts_witness :
  valid_fields "main" "src/app.ts" "u" ∧
  upload_fault outage_world = Some "Service unavailable" ∧
  ∃ e,
    @createFile toy_platform "p"
      {| fb_branch := "main"; fb_path := "src/app.ts"; fb_content := Some "code";
         fb_userId := "u" |} outage_world
    = (respond 500 (JError e), outage_world).
Proof.
  split_and!; [exact (main_fields "src/app.ts" eq_refl) | reflexivity |].
  exact (@createFile_upload_failure_aborts toy_platform
           "p" "main" "src/app.ts" "code" "u" "Service unavailable" outage_world
           (main_fields "src/app.ts" eq_refl) eq_refl).
Defined.

Lemma createFolder_soft_fail_witness :
  valid_fields "main" "docs" "u" ∧
  db_wf (db outage_world) ∧
  title_fits ("Create folder: " +:+ "docs") ∧
  @path_join toy_platform "docs" ".gitkeep" = "docs" +:+ "/.gitkeep" ∧
  ∃ id w',
    @createFolder toy_platform "p"
      {| pb_branch := "main"; pb_path := "docs"; pb_userId := "u" |} outage_world
    = (respond 201 (JNewFolder id "docs"), w') ∧
    (id ∉ snap_id <$> snapshots (db outage_world)) ∧
    id ∈ (snap_id <$> snapshots (db w')) ∧
    Pg.select_snapshot_files id (db w')
    = filter (λ f, File.path f ≠ "docs" +:+ "/.gitkeep")
             (current_files (db outage_world) "p" "main") ++
      [File.mk ("docs" +:+ "/.gitkeep") "sha256-of:" 0 644] ∧
    (branch_rows (db outage_world) "p" "main" ≠ [] →
     Pg.select_branch_head "p" "main" (db w') = [Some id]) ∧
    (branch_rows (db outage_world) "p" "main" = [] →
     branches (db w') = branches (db outage_world)) ∧
    (upload_fault outage_world ≠ None → bucket w' = bucket outage_world).
Proof.
  split_and!;
    [ exact (main_fields "docs" eq_refl) | exact readme_world_wf
    | exact (short_title "Create folder: docs" eq_refl) | reflexivity | ].
  exact (@createFolder_soft_fail toy_platform "p" "main" "docs" "u" outage_world
           (main_fields "docs" eq_refl) readme_world_wf
           (short_title "Create folder: docs" eq_refl) eq_refl).
Defined.

(** ** More on the mutations *)

Section MoreMutations.
Context `{Platform}.
Variables projectId branch userId : string.

Lemma invalid_fields_check (b p u : string) :
  ¬ valid_fields b p u →
  negb (JS.truthy b) || negb (JS.truthy p) || negb (JS.truthy u) = true.
Proof. intros Hinvalid. by destruct (fields_cases b p u). Qed.

(** X1. A mutation request with an empty branch, path or user id is answered
    400 by each of the four handlers, and so is a [createFile] whose content
    is not a string; nothing is read or written: the database and the bucket
    stay as they were. *)
Theorem missing_fields_rejected (path : string) (content : option string) (w : World) :
  ¬ valid_fields branch path userId →
  let fbody := {| fb_branch := branch; fb_path := path; fb_content := content;
                  fb_userId := userId |} in
  let pbody := {| pb_branch := branch; pb_path := path; pb_userId := userId |} in
  createFile projectId fbody w
  = (respond 400 (JError "Branch, path, content, and userId are required."), w) ∧
  createFolder projectId pbody w
  = (respond 400 (JError "Branch, path, and userId are required."), w) ∧
  deleteFile projectId pbody w
  = (respond 400 (JError "Branch, path, and userId are required."), w) ∧
  deleteFolder projectId pbody w
  = (respond 400 (JError "Branch, path, and userId are required."), w) ∧
  ∀ b p u,
    createFile projectId
      {| fb_branch := b; fb_path := p; fb_content := None; fb_userId := u |} w
    = (respond 400 (JError "Branch, path, content, and userId are required."), w).
Proof.
  intros Hinvalid. apply invalid_fields_check in Hinvalid. cbn zeta.
  unfold createFile, createFolder, deleteFile, deleteFolder.
  cbn [fb_branch fb_path fb_content fb_userId pb_branch pb_path pb_userId].
  rewrite Hinvalid. by destruct content.
Qed.

(** A request appends to [snapshots] and [snapshot_files], and to nothing
    else of these two tables. *)
Lemma request_appends (m : Mutation) (w : World) :
  ∃ snaps files,
    snapshots (db (request projectId branch userId m w).2) = snapshots (db w) ++ snaps ∧
    snapshot_files (db (request projectId branch userId m w).2)
    = snapshot_files (db w) ++ files.
Proof.
  destruct (request_effect projectId branch userId m w)
    as [[_ ->]|(title & _ & _ & ->)].
  - exists [], []. by rewrite !app_nil_r.
  - eexists _, _. split; reflexivity.
Qed.

(** X2. Immutability.  Whatever script of mutations is handled, the tables
    [snapshots] and [snapshot_files] are only appended to: every row that was
    there is still there, unchanged and at its place.  On a consistent store
    every snapshot that existed before the script therefore has exactly the
    file rows it had. *)
Theorem scripts_only_append (script : list (Conditions * Mutation)) (w : World) :
  db_wf (db w) →
  (∃ snaps files,
     snapshots (db (outcome projectId branch userId script w))
     = snapshots (db w) ++ snaps ∧
     snapshot_files (db (outcome projectId branch userId script w))
     = snapshot_files (db w) ++ files) ∧
  ∀ id, id ∈ snap_id <$> snapshots (db w) →
        Pg.select_snapshot_files id (db (outcome projectId branch userId script w))
        = Pg.select_snapshot_files id (db w).
Proof.
  intros Hwf. split.
  - clear Hwf. revert w. induction script as [|[e m] script IH]; intros w.
    + exists [], []. by rewrite !app_nil_r.
    + cbn [outcome].
      destruct (IH (request projectId branch userId m (arrive e w)).2)
        as (snaps & files & -> & ->).
      destruct (request_appends m (arrive e w)) as (snaps0 & files0 & -> & ->).
      cbn [arrive db]. exists (snaps0 ++ snaps), (files0 ++ files).
      by rewrite !app_assoc.
  - intros id Hid. apply outcome_old_files. by apply wf_ids_below.
Qed.

(** X3. On a consistent store, every step of a script that announces a
    snapshot inserted exactly one row of [snapshots] under the announced
    identifier; that row names the project and the user of the request, is
    stamped with the time of the request, and its [file_count] equals the
    number of file rows the snapshot has. *)
Theorem steps_record_snapshot (script : list (Conditions * Mutation)) (w : World) :
  db_wf (db w) →
  Forall (step_records_snapshot projectId userId)
         (run projectId branch userId script w).
Proof.
  revert w. induction script as [|[e m] script IH]; intros w Hwf; [constructor |].
  cbn [run].
  pose proof (request_effect projectId branch userId m (arrive e w)) as Heff.
  pose proof (request_wf projectId branch userId m (arrive e w) Hwf) as Hwf1.
  destruct (request projectId branch userId m (arrive e w)) as [r w1].
  cbn [fst snd] in *. constructor; [| by apply IH].
  intros id Hid. cbn [response after before] in *.
  destruct Heff as [[Hnone _]|(title & Hnew & _ & Hdb)]; [congruence |].
  rewrite Hnew in Hid. injection Hid as <-. rewrite Hdb.
  rewrite new_snapshot_files by done.
  eexists. split.
  { cbn [head_moved Pg.update_branch_head snd snapshots snapshot_added arrive db].
    rewrite filter_app, filter_none.
    - rewrite filter_cons, decide_True by done. reflexivity.
    - destruct Hwf as [Hsnaps _]. eapply Forall_impl; [exact Hsnaps |].
      intros r0 Hr0. cbn in *. lia. }
  by split_and!.
Qed.

Lemma request_other_branch (m : Mutation) (w : World) (projectId' branch' : string) :
  (projectId', branch') ≠ (projectId, branch) →
  branch_rows (db (request projectId branch userId m w).2) projectId' branch'
  = branch_rows (db w) projectId' branch'.
Proof.
  intros Hother.
  destruct (request_effect projectId branch userId m w)
    as [[_ ->]|(title & _ & _ & ->)]; [done |].
  by rewrite head_moved_other_branch.
Qed.

(** X4. A script of mutations on one branch leaves the rows of every other
    branch, of the same project or of another, exactly as they were: no
    other head is moved. *)
Theorem other_branches_untouched (script : list (Conditions * Mutation)) (w : World)
    (projectId' branch' : string) :
  (projectId', branch') ≠ (projectId, branch) →
  branch_rows (db (outcome projectId branch userId script w)) projectId' branch'
  = branch_rows (db w) projectId' branch'.
Proof.
  intros Hother. revert w. induction script as [|[e m] script IH]; intros w; [done |].
  cbn [outcome]. rewrite IH. by rewrite request_other_branch.
Qed.

Lemma request_no_row (m : Mutation) (w : World) :
  branch_rows (db w) projectId branch = [] →
  branches (db (request projectId branch userId m w).2) = branches (db w).
Proof.
  intros Hnone.
  destruct (request_effect projectId branch userId m w)
    as [[_ ->]|(title & _ & _ & ->)]; [done |].
  by rewrite head_moved_no_row.
Qed.

(** X5. The mutations never insert a branch: when the branch they are sent
    to has no row, the table [branches] is exactly as before after any script,
    however many snapshots the script created, so the branch still has no row
    and no head. *)
Theorem rowless_branch_stays_rowless (script : list (Conditions * Mutation)) (w : World) :
  branch_rows (db w) projectId branch = [] →
  branches (db (outcome projectId branch userId script w)) = branches (db w) ∧
  Pg.select_branch_head projectId branch (db (outcome projectId branch userId script w))
  = [].
Proof.
  intros Hnone.
  assert (Hbranches : branches (db (outcome projectId branch userId script w))
                      = branches (db w)).
  { revert w Hnone. induction script as [|[e m] script IH]; intros w Hnone; [done |].
    cbn [outcome].
    pose proof (request_no_row m (arrive e w) Hnone) as Hstep.
    rewrite IH; [done |]. unfold branch_rows in *. by rewrite Hstep. }
  split; [done |].
  unfold Pg.select_branch_head. rewrite Hbranches.
  change (filter _ (branches (db w))) with (branch_rows (db w) projectId branch).
  by rewrite Hnone.
Qed.

End MoreMutations.

(** ** Creating and deleting one file *)

Section FileLifeCycle.
Context `{Platform}.
Variables projectId branch userId : string.

Lemma mutated_world_wf (title : string) (files : list File.t) (w : World) :
  db_wf (db w) → db_wf (db (mutated projectId branch userId title files w)).
Proof. intros Hwf. unfold mutated. cbn [db with_db]. by apply mutated_wf. Qed.

Lemma mutated_world_rows (title : string) (files : list File.t) (w : World) :
  branch_rows (db w) projectId branch ≠ [] →
  branch_rows (db (mutated projectId branch userId title files w)) projectId branch ≠ [].
Proof.
  intros Hrows. unfold mutated. cbn [db with_db]. by apply mutated_branch_exists.
Qed.

(** After a commit the branch's current files are the files committed. *)
Lemma current_files_mutated (title : string) (files : list File.t) (w : World) :
  JS.truthy branch = true →
  db_wf (db w) →
  branch_rows (db w) projectId branch ≠ [] →
  current_files (db (mutated projectId branch userId title files w)) projectId branch
  = files.
Proof.
  intros Hb Hwf Hrows. unfold current_files, mutated. cbn [db with_db].
  rewrite mutated_snapshot_for by done. by apply new_snapshot_files.
Qed.

Lemma filter_replaced_others (path : string) (row : File.t) (files : list File.t) :
  File.path row = path →
  filter (λ f, File.path f ≠ path) (filter (λ f, File.path f ≠ path) files ++ [row])
  = filter (λ f, File.path f ≠ path) files.
Proof.
  intros Hrow. rewrite filter_app, (filter_none _ [row]), app_nil_r.
  - apply filter_all, Forall_forall. by intros f [Hf _]%list_elem_of_filter.
  - repeat constructor. cbn. by intros Hne.
Qed.



(** X6. On a branch that has a row in [branches], creating a file at a path
    the branch does not have, while the storage accepts the upload, and
    deleting it again gives the file set back: for a path whose two titles
    fit the column, the delete answers 200, and after the two requests the
    branch's current files are exactly the files it had before them. *)
Theorem createFile_then_deleteFile_restores (path content : string) (w : World) :
  valid_fields branch path userId →
  db_wf (db w) →
  branch_rows (db w) projectId branch ≠ [] →
  upload_fault w = None →
  title_fits ("Create file: " +:+ path) →
  title_fits ("Delete file: " +:+ path) →
  Forall (λ f, File.path f ≠ path) (current_files (db w) projectId branch) →
  let w1 :=
    (createFile projectId
       {| fb_branch := branch; fb_path := path; fb_content := Some content;
          fb_userId := userId |} w).2 in
  let '(r2, w2) :=
    deleteFile projectId
      {| pb_branch := branch; pb_path := path; pb_userId := userId |} w1 in
  status r2 = 200%Z ∧
  current_files (db w2) projectId branch = current_files (db w) projectId branch.
Proof.
  intros Hv Hwf Hrows Hfault _ _ Hnew. cbn zeta.
  rewrite createFile_run, Hfault by done. cbn zeta. cbn [snd].
  rewrite deleteFile_run by done.
  pose proof Hv as (Hb & _ & _).
  unfold mutated at 1 2 3. cbn [db with_db with_bucket clock].
  rewrite mutated_snapshot_for by done.
  rewrite new_snapshot_files by done. cbn zeta.
  rewrite filter_replaced_others by done.
  rewrite (filter_all _ _ Hnew).
  rewrite decide_False by (rewrite length_app; cbn; lia).
  split; [done |].
  apply current_files_mutated; [done | |].
  - by apply mutated_world_wf.
  - by apply mutated_world_rows.
Qed.

(** X7. On a branch that has a row in [branches], a delete cannot be
    repeated: after a [deleteFile] that succeeded on a consistent store, the
    same request is answered 404 and changes nothing. *)
Theorem deleteFile_twice_not_found (path : string) (w : World) :
  valid_fields branch path userId →
  db_wf (db w) →
  branch_rows (db w) projectId branch ≠ [] →
  let body := {| pb_branch := branch; pb_path := path; pb_userId := userId |} in
  status (deleteFile projectId body w).1 = 200%Z →
  deleteFile projectId body (deleteFile projectId body w).2
  = (respond 404 (JError ("File not found at path: " +:+ path)),
     (deleteFile projectId body w).2).
Proof.
  intros Hv Hwf Hrows. cbn zeta. rewrite deleteFile_run by done.
  pose proof Hv as (Hb & _ & _).
  destruct (snapshot_for (db w) projectId (Some branch)) as [id|]; [| done].
  cbn zeta. case_decide as Hlen; [done |]. cbn [fst snd]. intros _.
  rewrite deleteFile_run by done.
  unfold mutated at 1 2 3. cbn [db with_db clock].
  rewrite mutated_snapshot_for by done.
  rewrite new_snapshot_files by done. cbn zeta.
  rewrite (filter_all (λ f, File.path f ≠ path)
             (filter (λ f, File.path f ≠ path) (Pg.select_snapshot_files id (db w)))).
  - by rewrite decide_True.
  - apply Forall_forall. by intros f [Hf _]%list_elem_of_filter.
Qed.

End FileLifeCycle.

(** ** Content addressing *)

Section ContentAddressing.
Context `{Platform}.

(** X8. The key of an uploaded object depends on the project and the content
    only.  Two successful [createFile] requests of one project with the same
    content, on whatever branches and paths and by whatever users, store a
    single object: after the first the bucket holds the decoded bytes under
    [projectId/hash], and the second leaves the bucket as the first left
    it. *)
Theorem createFile_same_content_one_object
    (projectId branch1 path1 userId1 branch2 path2 userId2 content : string)
    (w : World) :
  valid_fields branch1 path1 userId1 →
  valid_fields branch2 path2 userId2 →
  upload_fault w = None →
  let w1 :=
    (createFile projectId
       {| fb_branch := branch1; fb_path := path1; fb_content := Some content;
          fb_userId := userId1 |} w).2 in
  let w2 :=
    (createFile projectId
       {| fb_branch := branch2; fb_path := path2; fb_content := Some content;
          fb_userId := userId2 |} w1).2 in
  bucket w1
  = <[storage_key projectId (sha256_hex (base64_decode content)) :=
        base64_decode content]> (bucket w) ∧
  bucket w2 = bucket w1.
Proof.
  intros Hv1 Hv2 Hfault. cbn zeta.
  rewrite (createFile_run projectId branch1) by done. rewrite Hfault. cbn zeta.
  cbn [snd].
  match goal with |- bucket ?w0 = _ ∧ _ => set (w1 := w0) end.
  assert (Hfault1 : upload_fault w1 = None) by done.
  assert (Hbucket1 : bucket w1
                     = <[storage_key projectId (sha256_hex (base64_decode content)) :=
                           base64_decode content]> (bucket w)) by done.
  rewrite (createFile_run projectId branch2) by done. rewrite Hfault1. cbn zeta.
  cbn [snd]. split; [done |].
  unfold mutated at 1. cbn [bucket with_db with_bucket new_file File.hash].
  rewrite Hbucket1. apply insert_insert_eq.
Qed.

End ContentAddressing.

(** ** The listing built by getTree *)

Section Listing.
Context `{Platform}.

(** [indexOf] answers [-1] when the character does not occur, and otherwise
    the length of the part before its first occurrence. *)
Lemma indexOf_cases (s : string) (c : ascii) :
  (JS.indexOf s c = (-1)%Z ∧ has_char (λ d, Ascii.eqb d c) s = false) ∨
  ((0 ≤ JS.indexOf s c)%Z ∧
   ∃ rest,
     s = JS.slice_to (Z.to_nat (JS.indexOf s c)) s +:+ String c rest ∧
     has_char (λ d, Ascii.eqb d c) (JS.slice_to (Z.to_nat (JS.indexOf s c)) s) = false).
Proof.
  induction s as [|d s IH]; [by left |].
  cbn [JS.indexOf has_char]. destruct (Ascii.eqb d c) eqn:Hd.
  - right. split; [done |]. apply Ascii.eqb_eq in Hd as ->. by exists s.
  - destruct IH as [[Hneg Hclean]|[Hpos (rest & Hs & Hclean)]].
    + left. by rewrite Hneg, Hclean.
    + right. destruct (JS.indexOf s c) as [|i|i] eqn:Hi; [| | lia];
        (split; [lia |]); exists rest; rewrite Z2Nat.inj_succ by lia;
        cbn [JS.slice_to has_char]; rewrite JSFacts.app_cons, <- Hs, Hd; done.
Qed.

Lemma indexOf_absent (s : string) (c : ascii) :
  JS.indexOf s c = (-1)%Z → has_char (λ d, Ascii.eqb d c) s = false.
Proof. destruct (indexOf_cases s c) as [[_ Hclean]|[Hpos _]]; [done | lia]. Qed.

Lemma indexOf_present (s : string) (c : ascii) :
  JS.indexOf s c ≠ (-1)%Z →
  ∃ rest,
    s = JS.slice_to (Z.to_nat (JS.indexOf s c)) s +:+ String c rest ∧
    has_char (λ d, Ascii.eqb d c) (JS.slice_to (Z.to_nat (JS.indexOf s c)) s) = false.
Proof. destruct (indexOf_cases s c) as [[Hneg _]|[_ Hrest]]; [done | by intros _]. Qed.

Lemma tree_step_ok (prefix : string) (rows : list snapshot_files_row)
    (acc : gset string * list TreeEntry) (row : snapshot_files_row) :
  tree_listing_ok prefix rows acc →
  tree_listing_ok prefix (rows ++ [row]) (tree_step prefix acc row).
Proof.
  destruct acc as [seen entries].
  intros (Hseen & Hnd & Hentries & Hrows). cbn [fst snd] in *.
  assert (Hold : ∀ e, e ∈ entries →
            has_char is_slash (entry_name e) = false ∧
            ∃ row0, row0 ∈ rows ++ [row] ∧
                    lists_segment e (rel_path (String.length prefix) row0) (sf_size row0)).
  { intros e He. destruct (Hentries e He) as (Hclean & row0 & Hrow0 & Hlists).
    split; [done |]. exists row0. rewrite elem_of_app. auto. }
  unfold tree_step. fold (rel_path (String.length prefix) row).
  set (rel := rel_path (String.length prefix) row) in *.
  assert (Hcover : ∀ (entries' : list TreeEntry) (name : string),
            (∀ e, e ∈ entries → e ∈ entries') →
            name ∈ entry_name <$> entries' →
            (rel = name ∨ ∃ rest, rel = name +:+ "/" +:+ rest) →
            ∀ row0, row0 ∈ rows ++ [row] →
              ∃ e, e ∈ entries' ∧
                   (rel_path (String.length prefix) row0 = entry_name e ∨
                    ∃ rest, rel_path (String.length prefix) row0
                            = entry_name e +:+ "/" +:+ rest)).
  { intros entries' name Hsub Hname Hrel row0 [Hrow0| ->%list_elem_of_singleton]%elem_of_app.
    - destruct (Hrows row0 Hrow0) as (e & He & Hcase). exists e. auto.
    - apply list_elem_of_fmap in Hname as (e & -> & He). exists e. auto. }
  destruct (decide (JS.indexOf rel JS.slash = (-1)%Z)) as [Hnone|Hsome].
  - destruct (decide (rel ∈ seen)) as [Hin|Hnew]; unfold tree_listing_ok; cbn [fst snd].
    + split_and!; try done.
      apply (Hcover entries rel); [done | by apply Hseen | by left].
    + split_and!.
      * intros name. rewrite fmap_app, elem_of_app, elem_of_union, elem_of_singleton.
        cbn. rewrite list_elem_of_singleton, Hseen. tauto.
      * rewrite fmap_app. apply NoDup_app. split_and!; [done | | apply NoDup_singleton].
        intros name Hname. cbn. rewrite list_elem_of_singleton. intros ->.
        by apply Hnew, Hseen.
      * intros e [He| ->%list_elem_of_singleton]%elem_of_app; [by apply Hold |].
        cbn. split; [by apply indexOf_absent |].
        exists row. split; [apply elem_of_app; right; by left |]. by left.
      * apply (Hcover _ rel).
        -- intros e He. apply elem_of_app. by left.
        -- rewrite fmap_app, elem_of_app. right. by left.
        -- by left.
  - destruct (indexOf_present rel JS.slash Hsome) as (rest & Hrel & Hclean).
    set (name := JS.slice_to (Z.to_nat (JS.indexOf rel JS.slash)) rel) in *.
    assert (Hdir : ∃ rest0, rel = name +:+ "/" +:+ rest0) by by exists rest.
    destruct (decide (name ∈ seen)) as [Hin|Hnew]; unfold tree_listing_ok; cbn [fst snd].
    + split_and!; try done.
      apply (Hcover entries name); [done | by apply Hseen | by right].
    + split_and!.
      * intros name0. rewrite fmap_app, elem_of_app, elem_of_union, elem_of_singleton.
        cbn. rewrite list_elem_of_singleton, Hseen. tauto.
      * rewrite fmap_app. apply NoDup_app. split_and!; [done | | apply NoDup_singleton].
        intros name0 Hname0. cbn. rewrite list_elem_of_singleton. intros ->.
        by apply Hnew, Hseen.
      * intros e [He| ->%list_elem_of_singleton]%elem_of_app; [by apply Hold |].
        cbn. split; [done |].
        exists row. split; [apply elem_of_app; right; by left |]. by right.
      * apply (Hcover _ name).
        -- intros e He. apply elem_of_app. by left.
        -- rewrite fmap_app, elem_of_app. right. by left.
        -- by right.
Qed.

Lemma tree_fold_ok (prefix : string) (processed rows : list snapshot_files_row)
    (acc : gset string * list TreeEntry) :
  tree_listing_ok prefix processed acc →
  tree_listing_ok prefix (processed ++ rows) (foldl (tree_step prefix) acc rows).
Proof.
  revert processed acc. induction rows as [|row rows IH]; intros processed acc Hok.
  - by rewrite app_nil_r.
  - cbn [foldl]. rewrite (assoc_L (++) processed [row] rows : 
      processed ++ row :: rows = (processed ++ [row]) ++ rows).
    by apply IH, tree_step_ok.
Qed.

Lemma tree_listing_ok_all (prefix : string) (rows : list snapshot_files_row) :
  tree_listing_ok prefix rows (foldl (tree_step prefix) (∅, []) rows).
Proof.
  apply (tree_fold_ok prefix [] rows). unfold tree_listing_ok. cbn.
  split_and!; [set_solver | constructor | by intros e ?%elem_of_nil
              | by intros row ?%elem_of_nil].
Qed.

Lemma getTree_run (projectId : string) (branch path : option string) (w : World) :
  getTree projectId branch path w
  = match snapshot_for (db w) projectId branch with
    | None => (respond 200 (JTree []), w)
    | Some id =>
        (respond 200
           (JTree (foldl (tree_step (tree_likePrefix path)) (∅, [])
                         (tree_rows id path (db w))).2), w)
    end.
Proof.
  unfold getTree, with_client, try_catch.
  erewrite bind_run; [| apply resolveSnapshotId_run].
  cbn [view tx world].
  destruct (snapshot_for (db w) projectId branch) as [id|]; [| reflexivity].
  erewrite bind_run; [| reflexivity]. cbn [view tx world].
  by destruct (foldl _ _ _).
Qed.

End Listing.

(** ** What the two readers answer *)

Section Readers.
Context `{Platform}.

(** X10. The two readers never write: for every request [getTree] and
    [getBlob] return the world as they found it (database and bucket alike).
    When no snapshot resolves for the project and branch, [getTree] answers
    200 with an empty listing and [getBlob] answers 404. *)
Theorem readers_change_nothing (projectId : string) (branch path : option string)
    (w : World) :
  (getTree projectId branch path w).2 = w ∧
  (getBlob projectId branch path w).2 = w ∧
  (snapshot_for (db w) projectId branch = None →
   getTree projectId branch path w = (respond 200 (JTree []), w) ∧
   getBlob projectId branch path w
   = (respond 404 (JNoContent "No snapshot for this branch/project"), w)).
Proof.
  rewrite getTree_run, getBlob_run.
  destruct (snapshot_for (db w) projectId branch) as [id|]; [| done].
  split_and!; [done | | done].
  by destruct (Pg.select_file_by_path id (default "" path) (db w)).
Qed.

(** X11. No name is listed twice by [getTree]: a directory implied by many
    files, or a name that is both a file and a directory, appears once. *)
Theorem getTree_names_distinct (projectId : string) (branch path : option string)
    (w : World) :
  NoDup (entry_name <$> tree_entries (getTree projectId branch path w).1).
Proof.
  rewrite getTree_run.
  destruct (snapshot_for (db w) projectId branch) as [id|]; [| constructor].
  cbn [fst tree_entries json respond].
  apply (tree_listing_ok_all (tree_likePrefix path) (tree_rows id path (db w))).
Qed.

(** X12. The names [getTree] lists are single path segments: no listed name
    holds a slash. *)
Theorem getTree_names_have_no_slash (projectId : string) (branch path : option string)
    (w : World) :
  Forall (λ e, has_char is_slash (entry_name e) = false)
         (tree_entries (getTree projectId branch path w).1).
Proof.
  rewrite getTree_run.
  destruct (snapshot_for (db w) projectId branch) as [id|]; [| constructor].
  cbn [fst tree_entries json respond].
  apply Forall_forall. intros e He.
  by apply (tree_listing_ok_all (tree_likePrefix path) (tree_rows id path (db w))).
Qed.

(** X13. The listing of [getTree] is the first level of the rows it read.
    Cut each row's path after the length of the prefix.  Every entry then
    lists the first segment of some row: a file entry for a row whose
    remaining path is the name, and a directory entry, without size, for a
    row whose remaining path goes on after the name and a slash.  And the
    first segment of every row read is listed. *)
Theorem getTree_lists_first_level (projectId : string) (branch path : option string)
    (w : World) (id : uuid) :
  snapshot_for (db w) projectId branch = Some id →
  let n := String.length (tree_likePrefix path) in
  let entries := tree_entries (getTree projectId branch path w).1 in
  (∀ e, e ∈ entries →
        ∃ row, row ∈ tree_rows id path (db w) ∧
               lists_first_segment e (rel_path n row)) ∧
  (∀ row, row ∈ tree_rows id path (db w) →
          ∃ e, e ∈ entries ∧
               (rel_path n row = entry_name e ∨
                ∃ rest, rel_path n row = entry_name e +:+ "/" +:+ rest)).
Proof.
  intros Hid. cbn zeta. rewrite getTree_run, Hid.
  cbn [fst tree_entries json respond].
  destruct (tree_listing_ok_all (tree_likePrefix path) (tree_rows id path (db w)))
    as (_ & _ & Hentries & Hrows).
  split; [| done]. intros e He.
  destruct (Hentries e He) as (_ & row & Hrow & Hlists).
  exists row. split; [done |].
  destruct Hlists as [(Hname & Htype & _)|Hdir]; [by left | by right].
Qed.

Lemma strip_leading_slashes_run (n : nat) (s : string) :
  JS.strip_leading_slashes (slashes n +:+ s) = JS.strip_leading_slashes s.
Proof. induction n as [|n IH]; [done |]. cbn [slashes]. by rewrite JSFacts.app_cons. Qed.

Lemma strip_trailing_slash (s : string) :
  JS.strip_trailing_slashes (s +:+ "/") = JS.strip_trailing_slashes s.
Proof.
  induction s as [|c s IH]; [done |].
  rewrite JSFacts.app_cons. cbn [JS.strip_trailing_slashes]. by rewrite IH.
Qed.

Lemma replace_outer_slashes_trailing (s : string) :
  JS.replace_outer_slashes (s +:+ "/") = JS.replace_outer_slashes s.
Proof.
  unfold JS.replace_outer_slashes. induction s as [|c s IH]; [done |].
  rewrite JSFacts.app_cons. cbn [JS.strip_leading_slashes].
  destruct (Ascii.eqb c JS.slash); [done |].
  rewrite <- JSFacts.app_cons. apply strip_trailing_slash.
Qed.

Lemma replace_outer_slashes_run (n m : nat) (s : string) :
  JS.replace_outer_slashes (slashes n +:+ s +:+ slashes m) = JS.replace_outer_slashes s.
Proof.
  unfold JS.replace_outer_slashes at 1. rewrite strip_leading_slashes_run.
  fold (JS.replace_outer_slashes (s +:+ slashes m)).
  revert s. induction m as [|m IH]; intros s.
  - cbn [slashes]. f_equal. induction s as [|c s IHs]; [done |].
    by rewrite JSFacts.app_cons, IHs.
  - cbn [slashes].
    change (String JS.slash (slashes m)) with ("/" +:+ slashes m).
    rewrite <- JSFacts.append_assoc, IH. apply replace_outer_slashes_trailing.
Qed.

(** X14. Slashes around the base path do not matter to [getTree]: with any
    number of slashes put before and after a path, the answer is the answer
    for the path itself. *)
Theorem getTree_ignores_outer_slashes (projectId : string) (branch : option string)
    (path : string) (n m : nat) (w : World) :
  getTree projectId branch (Some (slashes n +:+ path +:+ slashes m)) w
  = getTree projectId branch (Some path) w.
Proof.
  assert (Hbase : tree_basePath (Some (slashes n +:+ path +:+ slashes m))
                  = tree_basePath (Some path))
    by apply replace_outer_slashes_run.
  unfold getTree, tree_rows, tree_likePrefix. by rewrite Hbase.
Qed.

(** X15. [getBlob] answers 200 exactly when the snapshot resolved for the
    project and branch has a file row at the path, and 404 otherwise; whether
    the object is in the bucket plays no part in the status.  With 200 the
    content is null exactly when the bucket holds nothing under
    [projectId/snapshotId/hash]. *)
Theorem getBlob_status (projectId : string) (branch path : option string) (w : World) :
  let files :=
    match snapshot_for (db w) projectId branch with
    | Some id => Pg.select_snapshot_files id (db w)
    | None => []
    end in
  let r := (getBlob projectId branch path w).1 in
  (status r = 200%Z ↔ default "" path ∈ File.path <$> files) ∧
  (status r = 404%Z ↔ default "" path ∉ File.path <$> files) ∧
  ∀ id p h size mode content mime message,
    snapshot_for (db w) projectId branch = Some id →
    json r = JBlob p h size mode content mime message →
    content = base64_encode <$> bucket w !! (projectId +:+ "/" +:+ uuid_text id +:+ "/" +:+ h).
Proof.
  cbn zeta. rewrite getBlob_run.
  destruct (snapshot_for (db w) projectId branch) as [id|].
  - rewrite select_file_by_path_files.
    destruct (filter (λ f, File.path f = default "" path)
                (Pg.select_snapshot_files id (db w))) as [|f rest] eqn:Hfilter.
    + assert (Habsent : default "" path ∉ File.path <$> Pg.select_snapshot_files id (db w)).
      { intros (g & Hpath & Hg)%list_elem_of_fmap.
        assert (Hin : g ∈ filter (λ f, File.path f = default "" path)
                        (Pg.select_snapshot_files id (db w)))
          by by apply list_elem_of_filter.
        rewrite Hfilter in Hin. by apply elem_of_nil in Hin. }
      cbn. split_and!; [split; [done | tauto] | done | done].
    + assert (Hf : f ∈ filter (λ f, File.path f = default "" path)
                       (Pg.select_snapshot_files id (db w)))
        by (rewrite Hfilter; left).
      apply list_elem_of_filter in Hf as [Hpath Hf].
      assert (Hpresent : default "" path ∈ File.path <$> Pg.select_snapshot_files id (db w)).
      { rewrite <- Hpath. by apply list_elem_of_fmap_2. }
      cbn. split_and!; [done | split; [done | tauto] |].
      intros id' p h size mode content mime message [= <-] [= _ <- _ _ <- _ _]. done.
  - cbn. split_and!; [| | done].
    + split; [done | by intros ?%elem_of_nil].
    + split; [by intros _ ?%elem_of_nil | done].
Qed.

End Readers.

(** ** Listing branches *)

Section BranchListing.
Context `{Platform}.

Lemma insert_by_name_perm (r : branches_row) (sorted : list branches_row) :
  PgBranches.insert_by_name r sorted ≡ₚ r :: sorted.
Proof.
  induction sorted as [|r' rest IH]; [done |].
  cbn [PgBranches.insert_by_name].
  destruct (collate_le (br_name r) (br_name r')); [done |].
  rewrite IH. apply Permutation_swap.
Qed.

Lemma order_by_name_perm (rows : list branches_row) :
  PgBranches.order_by_name rows ≡ₚ rows.
Proof.
  induction rows as [|r rows IH]; [done |].
  unfold PgBranches.order_by_name in *. cbn [foldr].
  by rewrite insert_by_name_perm, IH.
Qed.

Lemma select_branches_perm (projectId : string) (d : Database) :
  PgBranches.select_branches projectId d ≡ₚ project_branches d projectId.
Proof. apply order_by_name_perm. Qed.

Lemma select_branches_none (projectId : string) (d : Database) :
  length (PgBranches.select_branches projectId d) = 0%nat ↔
  project_branches d projectId = [].
Proof.
  rewrite (Permutation_length (select_branches_perm projectId d)).
  by destruct (project_branches d projectId).
Qed.

(** The database after the [main] branch of a project was inserted at the
    project's latest snapshot. *)
Local Abbreviation main_inserted projectId w :=
  (PgBranches.insert_main projectId
     (head (Pg.select_latest_snapshot_id projectId (db w))) (clock w) (db w)).2.

Lemma getBranches_run (projectId : string) (w : World) :
  getBranches projectId w
  = if decide (project_branches (db w) projectId = [])
    then ({| branches_status := 200;
             branches_json :=
               JBranches (branch_entry <$>
                          PgBranches.select_branches projectId (main_inserted projectId w)) |},
          with_db w (main_inserted projectId w))
    else ({| branches_status := 200;
             branches_json :=
               JBranches (branch_entry <$> PgBranches.select_branches projectId (db w)) |},
          w).
Proof.
  unfold getBranches, with_client_for, try_catch.
  erewrite bind_run; [| reflexivity].
  erewrite bind_run; [| reflexivity]. cbn [view tx world].
  destruct (decide (length (PgBranches.select_branches projectId (db w)) = 0%nat))
    as [Hnone|Hsome].
  - rewrite decide_True by by apply select_branches_none. reflexivity.
  - rewrite decide_False by (by rewrite <- select_branches_none). reflexivity.
Qed.

Lemma main_inserted_branches (projectId : string) (w : World) :
  project_branches (db w) projectId = [] →
  project_branches (main_inserted projectId w) projectId
  = [{| br_project_id := projectId; br_name := "main";
        br_head_snapshot_id := head (Pg.select_latest_snapshot_id projectId (db w));
        br_updated_at := clock w |}].
Proof.
  intros Hnone. unfold project_branches in *. cbn.
  rewrite filter_app, Hnone, filter_cons, decide_True by done. done.
Qed.

(** X16. [getBranches] always answers 200 with a listing that is not empty:
    the branches of the project, each once.  A project that has a branch row
    is left untouched; for a project that has none, one row is inserted,
    named [main], whose head is the project's most recent snapshot (null when
    it has no snapshot), and nothing else changes. *)
Theorem getBranches_ensures_branch (projectId : string) (w : World) :
  let '(r, w') := getBranches projectId w in
  branches_status r = 200%Z ∧
  (∃ rows, branches_json r = JBranches rows ∧ rows ≠ [] ∧
           rows ≡ₚ branch_entry <$> project_branches (db w') projectId) ∧
  (project_branches (db w) projectId ≠ [] → w' = w) ∧
  (project_branches (db w) projectId = [] →
   branches_json r
   = JBranches [{| be_name := "main";
                   be_head_snapshot_id :=
                     head (Pg.select_latest_snapshot_id projectId (db w)) |}] ∧
   branches (db w')
   = branches (db w) ++
     [{| br_project_id := projectId; br_name := "main";
         br_head_snapshot_id := head (Pg.select_latest_snapshot_id projectId (db w));
         br_updated_at := clock w |}] ∧
   snapshots (db w') = snapshots (db w) ∧
   snapshot_files (db w') = snapshot_files (db w) ∧
   bucket w' = bucket w).
Proof.
  rewrite getBranches_run. case_decide as Hnone.
  - pose proof (main_inserted_branches projectId w Hnone) as Hmain.
    assert (Hlisting : PgBranches.select_branches projectId (main_inserted projectId w)
                       = project_branches (main_inserted projectId w) projectId).
    { unfold PgBranches.select_branches.
      change (filter _ (branches (main_inserted projectId w)))
        with (project_branches (main_inserted projectId w) projectId).
      by rewrite Hmain. }
    rewrite Hlisting. cbn [branches_status branches_json db with_db bucket].
    split_and!; [done | | done |].
    + eexists. split; [reflexivity |]. by rewrite Hmain.
    + intros _. by rewrite Hmain.
  - cbn [branches_status branches_json]. split_and!; [done | | done | done].
    eexists. split; [reflexivity |]. split.
    + intros Hnil. apply fmap_nil_inv in Hnil. apply Hnone.
      apply Permutation_nil_r. by rewrite <- Hnil, select_branches_perm.
    + by rewrite select_branches_perm.
Qed.

(** X17. [getBranches] is idempotent: asked again, it gives the same answer
    and changes nothing. *)
Theorem getBranches_idempotent (projectId : string) (w : World) :
  getBranches projectId (getBranches projectId w).2 = getBranches projectId w.
Proof.
  rewrite (getBranches_run projectId w). case_decide as Hnone.
  - cbn [snd]. rewrite getBranches_run. cbn [db with_db].
    rewrite decide_False; [done |].
    by rewrite (main_inserted_branches projectId w Hnone).
  - cbn [snd]. rewrite getBranches_run. by rewrite decide_False.
Qed.

(** Inserting [main] at the latest snapshot, for a project without branches,
    changes the resolution of no project and branch. *)
Lemma main_inserted_resolution (projectId : string) (w : World)
    (projectId' : string) (branch : option string) :
  project_branches (db w) projectId = [] →
  snapshot_for (main_inserted projectId w) projectId' branch
  = snapshot_for (db w) projectId' branch.
Proof.
  intros Hnone. unfold snapshot_for.
  change (Pg.select_latest_snapshot_id projectId' (main_inserted projectId w))
    with (Pg.select_latest_snapshot_id projectId' (db w)).
  destruct branch as [name|]; [| done].
  destruct (JS.truthy name); [| done].
  unfold Pg.select_branch_head. cbn [branches PgBranches.insert_main snd].
  rewrite filter_app, filter_cons. cbn [br_project_id br_name].
  destruct (decide (projectId = projectId' ∧ "main" = name)) as [[<- <-]|Hother].
  - assert (Hnorows : filter (λ r, br_project_id r = projectId ∧ br_name r = "main")
                        (branches (db w)) = []).
    { apply filter_none, Forall_forall. intros r Hr [Hp _].
      assert (Hin : r ∈ project_branches (db w) projectId)
        by by apply list_elem_of_filter.
      rewrite Hnone in Hin. by apply elem_of_nil in Hin. }
    rewrite Hnorows. cbn.
    by destruct (head (Pg.select_latest_snapshot_id projectId (db w))).
  - by rewrite app_nil_r.
Qed.

(** X18. Inserting [main] lazily changes what no request resolves to: for
    every project and every branch name, given or not, [resolveSnapshotId]
    answers after [getBranches] what it answered before. *)
Theorem getBranches_keeps_resolution (projectId : string) (w : World)
    (projectId' : string) (branch : option string) :
  (resolveSnapshotId projectId' branch
     {| world := (getBranches projectId w).2; tx := None |}).1
  = (resolveSnapshotId projectId' branch {| world := w; tx := None |}).1.
Proof.
  rewrite !resolveSnapshotId_run. cbn [fst view tx world]. f_equal.
  rewrite getBranches_run. case_decide as Hnone; [| done].
  cbn [snd db with_db]. by apply main_inserted_resolution.
Qed.


End BranchListing.

(** ** The README of a branch *)

Section Readme.

Lemma upsert_same_key (row r : readme_row) :
  readme_of (rd_project_id row) (rd_branch row)
    (if decide (readme_of (rd_project_id row) (rd_branch row) r) then row else r)
  ↔ readme_of (rd_project_id row) (rd_branch row) r.
Proof. case_decide as Hr; [| done]. split; [done | by intros _]. Qed.

Lemma upsert_other_key (projectId branch : string) (row r : readme_row) :
  (projectId, branch) ≠ (rd_project_id row, rd_branch row) →
  readme_of projectId branch
    (if decide (readme_of (rd_project_id row) (rd_branch row) r) then row else r)
  ↔ readme_of projectId branch r.
Proof.
  intros Hother. case_decide as Hr; [| done]. unfold readme_of in *.
  split; intros [Hp Hb]; exfalso; apply Hother; destruct Hr; congruence.
Qed.

Lemma select_upserted (row : readme_row) (t : list readme_row) :
  select_readme (rd_project_id row) (rd_branch row) (upsert_readme row t) = [row].
Proof.
  unfold select_readme, upsert_readme. case_decide as Hnone.
  - rewrite filter_app, Hnone, filter_cons, decide_True by done. done.
  - rewrite filter_fmap_stable by apply upsert_same_key.
    destruct (filter _ t) as [|r rest] eqn:Hfilter; [done |].
    assert (Hr : r ∈ filter (readme_of (rd_project_id row) (rd_branch row)) t)
      by (rewrite Hfilter; left).
    apply list_elem_of_filter in Hr as [Hr _].
    cbn. by rewrite decide_True.
Qed.

Lemma select_other_after_upsert (projectId branch : string) (row : readme_row)
    (t : list readme_row) :
  (projectId, branch) ≠ (rd_project_id row, rd_branch row) →
  select_readme projectId branch (upsert_readme row t) = select_readme projectId branch t.
Proof.
  intros Hother. unfold select_readme, upsert_readme. f_equal. case_decide as Hnone.
  - rewrite filter_app, filter_cons, decide_False, app_nil_r; [done |].
    intros [Hp Hb]. apply Hother. congruence.
  - rewrite filter_fmap_stable by (intros r; by apply upsert_other_key).
    apply fmap_unchanged, Forall_forall.
    intros r [[Hp Hb] _]%list_elem_of_filter.
    rewrite decide_False; [done |].
    intros [Hp' Hb']. apply Hother. congruence.
Qed.

(** X20. Round trip of the README: after [updateReadme] with a content for a
    project and a branch (the branch [main] when none is given), [getReadme]
    for the same project and branch answers 200 with that content, the time
    of the update and its author, whatever the table held before. *)
Theorem updateReadme_then_getReadme (projectId : string) (branch : option string)
    (content : string) (userId : option string) (now : Z) (t : list readme_row) :
  let '(r, t') :=
    updateReadme projectId
      {| rb_branch := branch; rb_content := Some content; rb_userId := userId |}
      now t in
  r = {| readme_status := 200; readme_json := JReadme content (Some now) userId |} ∧
  getReadme projectId branch t' = r.
Proof.
  unfold updateReadme, getReadme. cbn [rb_branch rb_content rb_userId].
  split; [done |].
  set (row := {| rd_project_id := projectId; rd_branch := default "main" branch;
                 rd_content := content; rd_updated_at := now;
                 rd_updated_by := userId |}).
  assert (Hsel : select_readme projectId (default "main" branch) (upsert_readme row t)
                 = [row]) by apply (select_upserted row t).
  by rewrite Hsel.
Qed.

(** X21. [updateReadme] on one branch of one project changes the README of
    no other: for every other project or branch, [getReadme] answers after
    the update what it answered before. *)
Theorem updateReadme_leaves_others (projectId : string) (body : ReadmeBody) (now : Z)
    (t : list readme_row) (projectId' : string) (branch' : option string) :
  (projectId', default "main" branch') ≠ (projectId, default "main" (rb_branch body)) →
  getReadme projectId' branch' (updateReadme projectId body now t).2
  = getReadme projectId' branch' t.
Proof.
  intros Hother. unfold updateReadme, getReadme.
  destruct (rb_content body) as [content|]; [| done]. cbn [snd].
  by rewrite select_other_after_upsert by done.
Qed.

(** X22. [updateReadme] keeps one README per project and branch: a table
    without two rows of the same key has none after the update either, which
    adds one row at most and removes none.  A request without content is
    answered 400 and leaves the table as it was. *)
Theorem updateReadme_keeps_keys_unique (projectId : string) (body : ReadmeBody)
    (now : Z) (t : list readme_row) :
  readme_keys_unique t →
  let '(r, t') := updateReadme projectId body now t in
  readme_keys_unique t' ∧
  (length t ≤ length t' ≤ S (length t))%nat ∧
  (rb_content body = None → readme_status r = 400%Z ∧ t' = t).
Proof.
  intros Hunique. unfold updateReadme.
  destruct (rb_content body) as [content|]; [| by split_and!; try lia].
  split; [| split; [| done]].
  - unfold readme_keys_unique, upsert_readme in *. cbn [rd_project_id rd_branch].
    case_decide as Hnone.
    + rewrite fmap_app. apply NoDup_app. split_and!; [done | | apply NoDup_singleton].
      intros key (r & -> & Hr)%list_elem_of_fmap. cbn.
      rewrite list_elem_of_singleton. intros [= Hp Hb].
      assert (Hin : r ∈ filter (readme_of projectId (default "main" (rb_branch body))) t)
        by by apply list_elem_of_filter.
      rewrite Hnone in Hin. by apply elem_of_nil in Hin.
    + rewrite <- list_fmap_compose.
      erewrite list_fmap_ext; [exact Hunique |].
      intros i r _. cbn. case_decide as Hr; [| done]. by destruct Hr as [-> ->].
  - unfold upsert_readme. case_decide.
    + rewrite length_app. cbn. lia.
    + rewrite length_fmap. lia.
Qed.

End Readme.

(** ** Repeating a mutation, and the constraints of the schema *)

Section Repeating.
Context `{Platform}.
Variables projectId branch userId : string.

(** X23. On a branch that has a row in [branches], creating again what was
    just created changes no file: while the storage accepts uploads and for a
    path whose titles fit the column, after a [createFile] the same request
    succeeds again with a new snapshot whose files are those of the first;
    and likewise for [createFolder], whose placeholder is replaced, not added
    a second time. *)
Theorem create_again_same_files (path content : string) (w : World) :
  valid_fields branch path userId →
  db_wf (db w) →
  branch_rows (db w) projectId branch ≠ [] →
  upload_fault w = None →
  title_fits ("Create file: " +:+ path) →
  title_fits ("Create folder: " +:+ path) →
  let fbody := {| fb_branch := branch; fb_path := path; fb_content := Some content;
                  fb_userId := userId |} in
  let pbody := {| pb_branch := branch; pb_path := path; pb_userId := userId |} in
  let file1 := createFile projectId fbody w in
  let file2 := createFile projectId fbody file1.2 in
  let folder1 := createFolder projectId pbody w in
  let folder2 := createFolder projectId pbody folder1.2 in
  (status file2.1 = 201%Z ∧ created file2.1 ≠ created file1.1 ∧
   current_files (db file2.2) projectId branch
   = current_files (db file1.2) projectId branch) ∧
  (status folder2.1 = 201%Z ∧ created folder2.1 ≠ created folder1.1 ∧
   current_files (db folder2.2) projectId branch
   = current_files (db folder1.2) projectId branch).
Proof.
  intros Hv Hwf Hrows Hfault _ _. cbn zeta. pose proof Hv as (Hb & _ & _).
  rewrite (createFile_run projectId branch path content userId w), Hfault by done.
  cbn zeta. cbn [fst snd].
  match goal with |- context [createFile _ _ ?w0] => set (w1 := w0) end.
  assert (Hfiles1 : current_files (db w1) projectId branch
                    = filter (λ f, File.path f ≠ path)
                        (current_files (db w) projectId branch) ++
                      [new_file path content])
    by by apply current_files_mutated.
  assert (Hwf1 : db_wf (db w1)) by by apply mutated_world_wf.
  assert (Hrows1 : branch_rows (db w1) projectId branch ≠ [])
    by by apply mutated_world_rows.
  rewrite (createFile_run projectId branch path content userId w1) by done.
  change (upload_fault w1) with (upload_fault w). rewrite Hfault. cbn zeta.
  rewrite (createFolder_run projectId branch path userId w), Hfault by done.
  cbn zeta. cbn [fst snd].
  match goal with |- context [createFolder _ _ ?v0] => set (v1 := v0) end.
  assert (Hfiles2 : current_files (db v1) projectId branch
                    = filter (λ f, File.path f ≠ path_join path ".gitkeep")
                        (current_files (db w) projectId branch) ++
                      [new_gitkeep path])
    by by apply current_files_mutated.
  assert (Hwf2 : db_wf (db v1)) by by apply mutated_world_wf.
  assert (Hrows2 : branch_rows (db v1) projectId branch ≠ [])
    by by apply mutated_world_rows.
  rewrite (createFolder_run projectId branch path userId v1) by done.
  change (upload_fault v1) with (upload_fault w). rewrite Hfault. cbn zeta.
  cbn [fst snd]. split; split_and!; try done.
  - cbn. change (uuid_seq (db w1)) with (S (uuid_seq (db w))). intros [= Hid]. lia.
  - rewrite current_files_mutated by done.
    rewrite Hfiles1. by rewrite filter_replaced_others.
  - cbn. change (uuid_seq (db v1)) with (S (uuid_seq (db w))). intros [= Hid]. lia.
  - rewrite current_files_mutated by done.
    rewrite Hfiles2. by rewrite filter_replaced_others.
Qed.

(** X24. On a branch that has a row in [branches], after a [deleteFolder]
    that succeeded on a consistent store, the same request is answered 404
    and changes nothing: no row under the prefix is left. *)
Theorem deleteFolder_twice_not_found (path : string) (w : World) :
  valid_fields branch path userId →
  db_wf (db w) →
  branch_rows (db w) projectId branch ≠ [] →
  let body := {| pb_branch := branch; pb_path := path; pb_userId := userId |} in
  status (deleteFolder projectId body w).1 = 200%Z →
  deleteFolder projectId body (deleteFolder projectId body w).2
  = (respond 404 (JError ("Folder not found or already empty at path: " +:+ path)),
     (deleteFolder projectId body w).2).
Proof.
  intros Hv Hwf Hrows. cbn zeta. rewrite deleteFolder_run by done.
  pose proof Hv as (Hb & _ & _).
  destruct (snapshot_for (db w) projectId (Some branch)) as [id|]; [| done].
  cbn zeta. case_decide as Hlen; [done |]. cbn [fst snd]. intros _.
  rewrite deleteFolder_run by done.
  unfold mutated at 1 2 3. cbn [db with_db clock].
  rewrite mutated_snapshot_for by done.
  rewrite new_snapshot_files by done. cbn zeta.
  rewrite (filter_all (λ f, JS.startsWith (File.path f) (folderPrefix path) ≠ true)
             (filter (λ f, JS.startsWith (File.path f) (folderPrefix path) ≠ true)
                (Pg.select_snapshot_files id (db w)))).
  - by rewrite decide_True.
  - apply Forall_forall. by intros f [Hf _]%list_elem_of_filter.
Qed.

(** X25. [deleteFolder] takes a folder, not a file: a row whose path is the
    folder's path itself, with neither of them ending in more, is never
    removed, since it does not start with the folder's prefix.  When the
    request succeeds on a consistent store, such a row is among the files of
    the new snapshot. *)
Theorem deleteFolder_keeps_exact_path (path : string) (f : File.t) (w : World) :
  valid_fields branch path userId →
  db_wf (db w) →
  JS.endsWith path "/" = false →
  File.path f = path →
  f ∈ current_files (db w) projectId branch →
  let '(r, w') :=
    deleteFolder projectId
      {| pb_branch := branch; pb_path := path; pb_userId := userId |} w in
  ∀ id, created r = Some id → f ∈ Pg.select_snapshot_files id (db w').
Proof.
  intros Hv Hwf Hplain Hpath Hf.
  assert (Hkept : JS.startsWith (File.path f) (folderPrefix path) ≠ true).
  { rewrite Hpath, folderPrefix_plain by done.
    intros (rest & Hrest)%JSFacts.startsWith_iff.
    apply (f_equal String.length) in Hrest.
    rewrite !JSFacts.append_length in Hrest. cbn in Hrest. lia. }
  rewrite deleteFolder_run by done. unfold current_files in Hf.
  destruct (snapshot_for (db w) projectId (Some branch)) as [id0|]; [| done].
  cbn zeta. case_decide as Hlen; [done |].
  intros id [= <-]. unfold mutated. cbn [db with_db clock].
  rewrite new_snapshot_files by done. by apply list_elem_of_filter.
Qed.

Lemma request_keys (m : Mutation) (w : World) :
  db_wf (db w) → keys_respected (db w) →
  keys_respected (db (request projectId branch userId m w).2).
Proof.
  intros Hwf [Hpk Hfk].
  destruct (request_effect projectId branch userId m w)
    as [[_ ->]|(title & _ & _ & ->)]; [done |].
  split; cbn.
  - rewrite fmap_app. apply NoDup_app. split_and!; [done | | apply NoDup_singleton].
    intros id Hid. cbn. rewrite list_elem_of_singleton. intros ->.
    apply wf_ids_below in Hid; [lia | done].
  - rewrite fmap_app. apply Forall_app. split.
    + eapply Forall_impl; [exact Hfk |]. intros r Hr. cbn in *.
      apply elem_of_app. by left.
    + apply Forall_fmap, Forall_forall. intros f _. cbn.
      apply elem_of_app. right. by left.
Qed.

(** X26. The mutations respect the constraints of the schema: on a store
    where no two snapshots share an identifier and every file row belongs to
    a snapshot, this is still so after any script; every file row a mutation
    inserts belongs to the snapshot row inserted with it. *)
Theorem scripts_respect_keys (script : list (Conditions * Mutation)) (w : World) :
  db_wf (db w) →
  keys_respected (db w) →
  db_wf (db (outcome projectId branch userId script w)) ∧
  keys_respected (db (outcome projectId branch userId script w)).
Proof.
  revert w. induction script as [|[e m] script IH]; intros w Hwf Hkeys; [done |].
  cbn [outcome]. apply IH.
  - by apply (request_wf projectId branch userId m (arrive e w)).
  - by apply (request_keys m (arrive e w)).
Qed.

End Repeating.

(** ** The further theorems at worked inputs *)

Lemma no_branch_fields : ¬ valid_fields "" "a.txt" "u".
Proof. intros [Hbranch _]. discriminate Hbranch. Defined.

Lemma missing_fields_rejected_witness :
  ¬ valid_fields "" "a.txt" "u" ∧
  @createFile toy_platform "p"
    {| fb_branch := ""; fb_path := "a.txt"; fb_content := Some "x"; fb_userId := "u" |}
    fresh_world
  = (respond 400 (JError "Branch, path, content, and userId are required."), fresh_world).
Proof.
  split; [exact no_branch_fields |].
  exact (proj1 (@missing_fields_rejected toy_platform "p" "" "u" "a.txt" (Some "x")
                  fresh_world no_branch_fields)).
Defined.

Lemma nested_world_initial : 0 ∈ snap_id <$> snapshots (db nested_world).
Proof. vm_compute. left. Defined.

Lemma scripts_only_append_witness :
  db_wf (db nested_world) ∧
  0 ∈ snap_id <$> snapshots (db nested_world) ∧
  Pg.select_snapshot_files 0
    (db (@outcome toy_platform "p" "main" "u" demo_script nested_world))
  = Pg.select_snapshot_files 0 (db nested_world).
Proof.
  split; [exact nested_world_wf |]. split; [exact nested_world_initial |].
  exact (proj2 (@scripts_only_append toy_platform "p" "main" "u" demo_script nested_world
                  nested_world_wf) 0 nested_world_initial).
Defined.

Lemma steps_record_snapshot_witness :
  db_wf (db fresh_world) ∧
  Forall (step_records_snapshot "p" "u")
         (@run toy_platform "p" "main" "u" demo_script fresh_world).
Proof.
  split; [exact fresh_world_wf |].
  exact (@steps_record_snapshot toy_platform "p" "main" "u" demo_script fresh_world
           fresh_world_wf).
Defined.

Lemma dev_is_not_main : ("p", "dev") ≠ ("p", "main").
Proof. intros Heq. discriminate Heq. Defined.

Lemma other_branches_untouched_witness :
  ("p", "dev") ≠ ("p", "main") ∧
  branch_rows (db two_branch_world) "p" "dev" = [dev_branch] ∧
  branch_rows (db (@outcome toy_platform "p" "main" "u" demo_script two_branch_world))
              "p" "dev"
  = branch_rows (db two_branch_world) "p" "dev".
Proof.
  split; [exact dev_is_not_main |]. split; [reflexivity |].
  exact (@other_branches_untouched toy_platform "p" "main" "u" demo_script
           two_branch_world "p" "dev" dev_is_not_main).
Defined.

Lemma rowless_branch_stays_rowless_witness :
  branch_rows (db fresh_world) "p" "dev" = [] ∧
  branches (db (@outcome toy_platform "p" "dev" "u" demo_script fresh_world))
  = branches (db fresh_world) ∧
  Pg.select_branch_head "p" "dev"
    (db (@outcome toy_platform "p" "dev" "u" demo_script fresh_world)) = [].
Proof.
  split; [reflexivity |].
  exact (@rowless_branch_stays_rowless toy_platform "p" "dev" "u" demo_script
           fresh_world eq_refl).
Defined.

Lemma fresh_world_no_notes :
  Forall (λ f, File.path f ≠ "notes.md") (current_files (db fresh_world) "p" "main").
Proof. vm_compute. constructor. Defined.

Lemma createFile_then_deleteFile_restores_witness :
  valid_fields "main" "notes.md" "u" ∧
  db_wf (db fresh_world) ∧
  branch_rows (db fresh_world) "p" "main" ≠ [] ∧
  upload_fault fresh_world = None ∧
  title_fits ("Create file: " +:+ "notes.md") ∧
  title_fits ("Delete file: " +:+ "notes.md") ∧
  Forall (λ f, File.path f ≠ "notes.md") (current_files (db fresh_world) "p" "main") ∧
  let w1 :=
    (@createFile toy_platform "p"
       {| fb_branch := "main"; fb_path := "notes.md"; fb_content := Some "n";
          fb_userId := "u" |} fresh_world).2 in
  let '(r2, w2) :=
    deleteFile "p" {| pb_branch := "main"; pb_path := "notes.md"; pb_userId := "u" |} w1 in
  status r2 = 200%Z ∧
  current_files (db w2) "p" "main" = current_files (db fresh_world) "p" "main".
Proof.
  split_and!;
    [ exact (main_fields "notes.md" eq_refl) | exact fresh_world_wf
    | exact fresh_world_main | reflexivity
    | exact (short_title "Create file: notes.md" eq_refl)
    | exact (short_title "Delete file: notes.md" eq_refl)
    | exact fresh_world_no_notes | ].
  exact (@createFile_then_deleteFile_restores toy_platform "p" "main" "u"
           "notes.md" "n" fresh_world (main_fields "notes.md" eq_refl)
           fresh_world_wf fresh_world_main eq_refl
           (short_title "Create file: notes.md" eq_refl)
           (short_title "Delete file: notes.md" eq_refl) fresh_world_no_notes).
Defined.

Lemma readme_deleted :
  status (deleteFile "p"
            {| pb_branch := "main"; pb_path := "README.md"; pb_userId := "u" |}
            readme_world).1 = 200%Z.
Proof. vm_compute. reflexivity. Defined.

Lemma deleteFile_twice_not_found_witness :
  valid_fields "main" "README.md" "u" ∧
  db_wf (db readme_world) ∧
  branch_rows (db readme_world) "p" "main" ≠ [] ∧
  status (deleteFile "p"
            {| pb_branch := "main"; pb_path := "README.md"; pb_userId := "u" |}
            readme_world).1 = 200%Z ∧
  deleteFile "p" {| pb_branch := "main"; pb_path := "README.md"; pb_userId := "u" |}
    (deleteFile "p" {| pb_branch := "main"; pb_path := "README.md"; pb_userId := "u" |}
       readme_world).2
  = (respond 404 (JError ("File not found at path: " +:+ "README.md")),
     (deleteFile "p" {| pb_branch := "main"; pb_path := "README.md"; pb_userId := "u" |}
        readme_world).2).
Proof.
  split_and!;
    [ exact (main_fields "README.md" eq_refl) | exact readme_world_wf
    | exact readme_world_main | exact readme_deleted | ].
  exact (deleteFile_twice_not_found "p" "main" "u" "README.md" readme_world
           (main_fields "README.md" eq_refl) readme_world_wf readme_world_main
           readme_deleted).
Defined.

Lemma createFile_same_content_one_object_witness :
  valid_fields "main" "a.txt" "u" ∧
  valid_fields "main" "b/copy.txt" "v" ∧
  upload_fault fresh_world = None ∧
  let w1 :=
    (@createFile toy_platform "p"
       {| fb_branch := "main"; fb_path := "a.txt"; fb_content := Some "same";
          fb_userId := "u" |} fresh_world).2 in
  let w2 :=
    (@createFile toy_platform "p"
       {| fb_branch := "main"; fb_path := "b/copy.txt"; fb_content := Some "same";
          fb_userId := "v" |} w1).2 in
  bucket w1
  = <[@storage_key "p" (@sha256_hex toy_platform (@base64_decode toy_platform "same")) :=
        @base64_decode toy_platform "same"]> (bucket fresh_world) ∧
  bucket w2 = bucket w1.
Proof.
  split_and!;
    [ exact (main_fields "a.txt" eq_refl) | by repeat split | reflexivity | ].
  refine (@createFile_same_content_one_object toy_platform
            "p" "main" "a.txt" "u" "main" "b/copy.txt" "v" "same" fresh_world
            (main_fields "a.txt" eq_refl) _ eq_refl).
  by repeat split.
Defined.



Lemma getTree_lists_first_level_witness :
  snapshot_for (db nested_world) "p" (Some "main") = Some 0 ∧
  let n := String.length (@tree_likePrefix (Some "a")) in
  let entries :=
    tree_entries (@getTree toy_platform "p" (Some "main") (Some "a") nested_world).1 in
  (∀ e, e ∈ entries →
        ∃ row, row ∈ @tree_rows toy_platform 0 (Some "a") (db nested_world) ∧
               lists_first_segment e (rel_path n row)) ∧
  (∀ row, row ∈ @tree_rows toy_platform 0 (Some "a") (db nested_world) →
          ∃ e, e ∈ entries ∧
               (rel_path n row = entry_name e ∨
                ∃ rest, rel_path n row = entry_name e +:+ "/" +:+ rest)).
Proof.
  split; [reflexivity |].
  exact (@getTree_lists_first_level toy_platform "p" (Some "main") (Some "a")
           nested_world 0 eq_refl).
Defined.



Lemma readme_other_project :
  ("q", default "main" None)
  ≠ ("p", default "main"
            (rb_branch {| rb_branch := Some "main"; rb_content := Some "# p";
                          rb_userId := Some "u" |})).
Proof. intros Heq. discriminate Heq. Defined.

Lemma updateReadme_leaves_others_witness :
  ("q", default "main" None)
  ≠ ("p", default "main"
            (rb_branch {| rb_branch := Some "main"; rb_content := Some "# p";
                          rb_userId := Some "u" |})) ∧
  getReadme "q" None
    (updateReadme "p"
       {| rb_branch := Some "main"; rb_content := Some "# p"; rb_userId := Some "u" |}
       20 readme_table).2
  = getReadme "q" None readme_table.
Proof.
  split; [exact readme_other_project |].
  exact (updateReadme_leaves_others "p"
           {| rb_branch := Some "main"; rb_content := Some "# p"; rb_userId := Some "u" |}
           20 readme_table "q" None readme_other_project).
Defined.

Lemma readme_table_unique : readme_keys_unique readme_table.
Proof. repeat constructor. intros Hin. by apply elem_of_nil in Hin. Defined.

Lemma updateReadme_keeps_keys_unique_witness :
  readme_keys_unique readme_table ∧
  let '(r, t') :=
    updateReadme "q"
      {| rb_branch := None; rb_content := Some "# q, again"; rb_userId := None |}
      20 readme_table in
  readme_keys_unique t' ∧
  (length readme_table ≤ length t' ≤ S (length readme_table))%nat ∧
  (rb_content {| rb_branch := None; rb_content := Some "# q, again"; rb_userId := None |}
   = None → readme_status r = 400%Z ∧ t' = readme_table).
Proof.
  split; [exact readme_table_unique |].
  exact (updateReadme_keeps_keys_unique "q"
           {| rb_branch := None; rb_content := Some "# q, again"; rb_userId := None |}
           20 readme_table readme_table_unique).
Defined.

Lemma create_again_same_files_witness :
  valid_fields "main" "docs" "u" ∧
  db_wf (db fresh_world) ∧
  branch_rows (db fresh_world) "p" "main" ≠ [] ∧
  upload_fault fresh_world = None ∧
  title_fits ("Create file: " +:+ "docs") ∧
  title_fits ("Create folder: " +:+ "docs") ∧
  let pbody := {| pb_branch := "main"; pb_path := "docs"; pb_userId := "u" |} in
  let folder1 := @createFolder toy_platform "p" pbody fresh_world in
  let folder2 := @createFolder toy_platform "p" pbody folder1.2 in
  status folder2.1 = 201%Z ∧ created folder2.1 ≠ created folder1.1 ∧
  current_files (db folder2.2) "p" "main" = current_files (db folder1.2) "p" "main".
Proof.
  split_and!;
    [ exact (main_fields "docs" eq_refl) | exact fresh_world_wf
    | exact fresh_world_main | reflexivity
    | exact (short_title "Create file: docs" eq_refl)
    | exact (short_title "Create folder: docs" eq_refl) | .. ];
    apply (@create_again_same_files toy_platform "p" "main" "u" "docs" "text"
             fresh_world (main_fields "docs" eq_refl) fresh_world_wf fresh_world_main
             eq_refl (short_title "Create file: docs" eq_refl)
             (short_title "Create folder: docs" eq_refl)).
Defined.

Lemma nested_world_main : branch_rows (db nested_world) "p" "main" ≠ [].
Proof. vm_compute. intros Hnil. discriminate Hnil. Defined.

Lemma nested_folder_deleted :
  status (deleteFolder "p"
            {| pb_branch := "main"; pb_path := "a/b"; pb_userId := "u" |}
            nested_world).1 = 200%Z.
Proof. vm_compute. reflexivity. Defined.

Lemma deleteFolder_twice_not_found_witness :
  valid_fields "main" "a/b" "u" ∧
  db_wf (db nested_world) ∧
  branch_rows (db nested_world) "p" "main" ≠ [] ∧
  status (deleteFolder "p"
            {| pb_branch := "main"; pb_path := "a/b"; pb_userId := "u" |}
            nested_world).1 = 200%Z ∧
  deleteFolder "p" {| pb_branch := "main"; pb_path := "a/b"; pb_userId := "u" |}
    (deleteFolder "p" {| pb_branch := "main"; pb_path := "a/b"; pb_userId := "u" |}
       nested_world).2
  = (respond 404 (JError ("Folder not found or already empty at path: " +:+ "a/b")),
     (deleteFolder "p" {| pb_branch := "main"; pb_path := "a/b"; pb_userId := "u" |}
        nested_world).2).
Proof.
  split_and!;
    [ exact (main_fields "a/b" eq_refl) | exact nested_world_wf
    | exact nested_world_main | exact nested_folder_deleted | ].
  exact (deleteFolder_twice_not_found "p" "main" "u" "a/b" nested_world
           (main_fields "a/b" eq_refl) nested_world_wf nested_world_main
           nested_folder_deleted).
Defined.

Lemma shadow_world_wf : db_wf (db shadow_world).
Proof. vm_compute. split; repeat constructor. Defined.

Lemma shadow_world_docs_file :
  File.mk "docs" "h0" 3 644 ∈ current_files (db shadow_world) "p" "main".
Proof. vm_compute. left. Defined.

Lemma deleteFolder_keeps_exact_path_witness :
  valid_fields "main" "docs" "u" ∧
  db_wf (db shadow_world) ∧
  JS.endsWith "docs" "/" = false ∧
  File.path (File.mk "docs" "h0" 3 644) = "docs" ∧
  File.mk "docs" "h0" 3 644 ∈ current_files (db shadow_world) "p" "main" ∧
  let '(r, w') :=
    deleteFolder "p" {| pb_branch := "main"; pb_path := "docs"; pb_userId := "u" |}
                 shadow_world in
  ∀ id, created r = Some id →
        File.mk "docs" "h0" 3 644 ∈ Pg.select_snapshot_files id (db w').
Proof.
  split_and!;
    [ exact (main_fields "docs" eq_refl) | exact shadow_world_wf | reflexivity
    | reflexivity | exact shadow_world_docs_file | ].
  exact (deleteFolder_keeps_exact_path "p" "main" "u" "docs" (File.mk "docs" "h0" 3 644)
           shadow_world (main_fields "docs" eq_refl) shadow_world_wf eq_refl eq_refl
           shadow_world_docs_file).
Defined.

Lemma nested_world_keys : keys_respected (db nested_world).
Proof.
  split.
  - vm_compute. repeat constructor. intros Hin. by apply elem_of_nil in Hin.
  - repeat constructor.
Defined.

Lemma scripts_respect_keys_witness :
  db_wf (db nested_world) ∧
  keys_respected (db nested_world) ∧
  db_wf (db (@outcome toy_platform "p" "main" "u" demo_script nested_world)) ∧
  keys_respected (db (@outcome toy_platform "p" "main" "u" demo_script nested_world)).
Proof.
  split; [exact nested_world_wf |]. split; [exact nested_world_keys |].
  exact (@scripts_respect_keys toy_platform "p" "main" "u" demo_script nested_world
           nested_world_wf nested_world_keys).
Defined.

(** Without a row for the branch a request starts from the project's newest
    snapshot, not from the snapshot of the request before: on [stale_world]
    the same [deleteFile] succeeds twice, and a file created is not found by
    the [deleteFile] that follows. *)
Example deleteFile_rowless_repeats :
  let body := {| pb_branch := "main"; pb_path := "README.md"; pb_userId := "u" |} in
  let first := deleteFile "p" body stale_world in
  let second := deleteFile "p" body first.2 in
  first.1 = respond 200 (JDeleted 1 "README.md") ∧
  second.1 = respond 200 (JDeleted 2 "README.md").
Proof. vm_compute. done. Qed.

Example createFile_rowless_not_found :
  let made :=
    @createFile toy_platform "p"
      {| fb_branch := "main"; fb_path := "notes.md"; fb_content := Some "n";
         fb_userId := "u" |} stale_world in
  let gone :=
    deleteFile "p" {| pb_branch := "main"; pb_path := "notes.md"; pb_userId := "u" |}
               made.2 in
  status made.1 = 201%Z ∧ status gone.1 = 404%Z.
Proof. vm_compute. done. Qed.

(** Deleting the folder [docs] keeps the file [docs]. *)
Example deleteFolder_shadowed :
  let '(r, w') :=
    deleteFolder "p" {| pb_branch := "main"; pb_path := "docs"; pb_userId := "u" |}
                 shadow_world in
  r = respond 200 (JDeleted 1 "docs") ∧
  current_files (db w') "p" "main" = [File.mk "docs" "h0" 3 644].
Proof. vm_compute. done. Qed.

(** Listing a project without branches inserts [main]; listing the root of
    [shadow_world] shows the name [docs] once, as the file. *)
Example getBranches_bare :
  (@getBranches toy_platform "p" bare_world).1
  = {| branches_status := 200;
       branches_json := JBranches [{| be_name := "main"; be_head_snapshot_id := None |}] |}.
Proof. vm_compute. reflexivity. Qed.

Example getTree_shadowed :
  tree_entries (@getTree toy_platform "p" (Some "main") None shadow_world).1
  = [{| entry_name := "docs"; entry_type := type_file; entry_size := Some 3%Z |}].
Proof. vm_compute. reflexivity. Qed.
